(** * dw-lazy-list: the activation engine of [DwLazyList]

    A shallow embedding of [src/dw-lazy-list.js]: the two engine runs
    [refresh] and [initialItemRefresh], the boundary flags computed by
    [_refreshScrollProps], and the geometry readers they call.

    Modelling conventions.
    - JavaScript numbers that carry geometry (offsets, lengths, the
      prerender ratio) are rationals [Q] with exact arithmetic (the rounding
      of doubles is not modelled); item counts are integers [Z]; an index
      handed out by [forEach] is a [nat].
    - A numeric property that may be [undefined] (or [NaN]) is an [option]:
      [None] is falsy under [&&] and [||], and makes every comparison it
      enters false.
    - A method mutating [this] or a child element becomes a function that
      returns the updated record.
    - lodash's [forEach] visits an array-like collection in index order and
      stops as soon as the iteratee returns exactly [false]. *)

From Stdlib Require Import QArith ZArith Bool List String Lia Lqa Relations.
Import ListNotations.

Local Open Scope Q_scope.

(** ** Numbers *)

(** [x < y] on numbers, as a boolean. *)
Definition Qlt_bool (x y : Q) : bool := negb (Qle_bool y x).

(** [x > y] is [y < x]. *)
Definition Qgt_bool (x y : Q) : bool := Qlt_bool y x.

(** [n || 0] for a number that may be undefined. *)
Definition or_zero (n : option Q) : Q :=
  match n with
  | Some q => if Qeq_bool q 0 then 0 else q
  | None => 0
  end.

(** Truthiness of a count: defined and non-zero. *)
Definition truthy (n : option Z) : bool :=
  match n with
  | Some z => negb (z =? 0)%Z
  | None => false
  end.

(** [index < n] where [n] may be undefined. *)
Definition index_lt (index : nat) (n : option Z) : bool :=
  match n with
  | Some z => (Z.of_nat index <? z)%Z
  | None => false
  end.

(** [index <= base + n] where [n] may be undefined (the sum is then NaN). *)
Definition index_le_plus (index base : nat) (n : option Z) : bool :=
  match n with
  | Some z => (Z.of_nat index <=? Z.of_nat base + z)%Z
  | None => false
  end.

(** ** Data model *)

(** A slotted child: the two offsets the engine reads and the flag it writes. *)
Record LazyChild : Type := mkLazyChild {
  offsetTop : Q;
  offsetLeft : Q;
  active : bool
}.

(** [element.active = true] *)
Definition activate (element : LazyChild) : LazyChild :=
  mkLazyChild (offsetTop element) (offsetLeft element) true.

(** The geometry of a scrolling DOM element. *)
Record HTMLElement : Type := mkHTMLElement {
  scrollTop : Q;
  scrollLeft : Q;
  scrollHeight : Q;
  scrollWidth : Q;
  clientHeight : Q;
  clientWidth : Q;
  offsetHeight : Q;
  offsetWidth : Q
}.

(** [scrollTarget] is either the document (whose geometry is that of
    [document.scrollingElement]) or an element. *)
Inductive ScrollTarget : Type :=
| Document (scrollingElement : HTMLElement)
| Element (target : HTMLElement).

Record DwLazyList : Type := mkDwLazyList {
  direction : string;
  prerenderItemsPercentages : option Q;
  initialItemsCount : option Z;
  prerenderItemsCount : option Z;
  nonContinuous : bool;
  scrollTarget : ScrollTarget;
  _hasScroll : bool;
  _scrollTop : bool;
  _scrollBottom : bool;
  children : list LazyChild
}.

Definition set_scrollProps (self : DwLazyList) (hasScroll top bottom : bool)
  : DwLazyList :=
  mkDwLazyList (direction self) (prerenderItemsPercentages self)
    (initialItemsCount self) (prerenderItemsCount self) (nonContinuous self)
    (scrollTarget self) hasScroll top bottom (children self).

Definition set_children (self : DwLazyList) (cs : list LazyChild)
  : DwLazyList :=
  mkDwLazyList (direction self) (prerenderItemsPercentages self)
    (initialItemsCount self) (prerenderItemsCount self) (nonContinuous self)
    (scrollTarget self) (_hasScroll self) (_scrollTop self)
    (_scrollBottom self) cs.

(** ** lodash [forEach] *)

(** The iteratee receives the closure state, the element and its index; it
    returns the new closure state, the element after its mutations, and its
    return value.  Iteration stops after the first [false]. *)
Fixpoint forEach_from {St A : Type}
  (iteratee : St -> A -> nat -> St * A * bool)
  (index : nat) (st : St) (collection : list A) : St * list A :=
  match collection with
  | [] => (st, [])
  | value :: rest =>
      match iteratee st value index with
      | (st', value', true) =>
          let (st'', rest') := forEach_from iteratee (S index) st' rest in
          (st'', value' :: rest')
      | (st', value', false) => (st', value' :: rest)
      end
  end.

Definition forEach {St A : Type} (collection : list A) (st : St)
  (iteratee : St -> A -> nat -> St * A * bool) : St * list A :=
  forEach_from iteratee 0 st collection.

(** ** Geometry readers *)

Definition isVertical (self : DwLazyList) : bool :=
  String.eqb (direction self) "VERTICAL".

Definition _getScrollingElement (self : DwLazyList) : HTMLElement :=
  match scrollTarget self with
  | Document scrollingElement => scrollingElement
  | Element target => target
  end.

Definition _findContentLength (self : DwLazyList) : Q :=
  let scrollingElement := _getScrollingElement self in
  if isVertical self then scrollHeight scrollingElement
  else scrollWidth scrollingElement.

Definition _findScorllLength (self : DwLazyList) : Q :=
  let scrollingElement := _getScrollingElement self in
  if isVertical self then scrollTop scrollingElement
  else scrollLeft scrollingElement.

Definition _findViewportLength (self : DwLazyList) : Q :=
  match scrollTarget self with
  | Document scrollingElement =>
      if isVertical self then clientHeight scrollingElement
      else clientWidth scrollingElement
  | Element target =>
      if isVertical self then offsetHeight target else offsetWidth target
  end.

Definition _findLazyChildren (self : DwLazyList) : list LazyChild :=
  children self.

(** ** Boundary flags *)

Definition _refreshScrollProps (self : DwLazyList)
  (viewportLength scrollLength : Q) : DwLazyList :=
  let contentLength := _findContentLength self in
  let hasScroll := Qgt_bool contentLength viewportLength in
  let top := hasScroll && Qeq_bool scrollLength 0 in
  let bottom :=
    hasScroll && Qeq_bool contentLength (viewportLength + scrollLength) in
  set_scrollProps self hasScroll top bottom.

(** ** The two engine runs *)

(** [self.initialItemsCount && index < self.initialItemsCount] *)
Definition isInitialItem (self : DwLazyList) (index : nat) : bool :=
  truthy (initialItemsCount self) && index_lt index (initialItemsCount self).

(** The callback of [initialItemRefresh]; it has no closure state. *)
Definition initialItemRefresh_iteratee (self : DwLazyList)
  (st : unit) (element : LazyChild) (index : nat) : unit * LazyChild * bool :=
  if active element then (st, element, true)
  else if isInitialItem self index then (st, activate element, true)
  else (st, element, false).

Definition initialItemRefresh (self : DwLazyList) : DwLazyList :=
  let viewportLength := _findViewportLength self in
  let scrollLength := _findScorllLength self in
  let self := _refreshScrollProps self viewportLength scrollLength in
  let (_, cs) :=
    forEach (_findLazyChildren self) tt (initialItemRefresh_iteratee self) in
  set_children self cs.

(** The four window edges that [refresh] computes before scanning. *)
Record Window : Type := mkWindow {
  viewportBottom : Q;
  viewportTop : Q;
  viewportExtendedBottom : Q;
  viewportExtendedTop : Q
}.

Definition window (self : DwLazyList) (viewportLength scrollLength : Q)
  : Window :=
  let viewportBottom := scrollLength + viewportLength in
  let viewportTop := scrollLength - viewportLength in
  let viewportExtendedBottom :=
    viewportBottom
    + viewportLength * or_zero (prerenderItemsPercentages self) in
  let viewportExtendedTop :=
    viewportTop - viewportLength * or_zero (prerenderItemsPercentages self) in
  mkWindow viewportBottom viewportTop viewportExtendedBottom
    viewportExtendedTop.

Definition elStartPos (self : DwLazyList) (element : LazyChild) : Q :=
  if isVertical self then offsetTop element else offsetLeft element.

(** The test of the [nonContinuous] branch. *)
Definition inExtendedViewport (self : DwLazyList) (w : Window)
  (element : LazyChild) : bool :=
  Qlt_bool (elStartPos self element) (viewportExtendedBottom w)
  && (Qgt_bool (elStartPos self element) (viewportTop w)
      || Qgt_bool (elStartPos self element) (viewportExtendedTop w)).

(** The bookkeeping assignment of the continuous branch. *)
Definition updateLastVisible (self : DwLazyList) (w : Window)
  (lastVisibleElementInViewport : nat) (element : LazyChild) (index : nat)
  : nat :=
  if Qlt_bool (elStartPos self element) (viewportBottom w) then index
  else lastVisibleElementInViewport.

(** The test of the continuous branch, on the updated bookkeeping value. *)
Definition inPrerenderRange (self : DwLazyList) (w : Window)
  (lastVisibleElementInViewport : nat) (element : LazyChild) (index : nat)
  : bool :=
  Qlt_bool (elStartPos self element) (viewportExtendedBottom w)
  || index_le_plus index lastVisibleElementInViewport
       (prerenderItemsCount self).

(** The callback of [refresh]; its closure state is
    [lastVisibleElementInViewport]. *)
Definition refresh_iteratee (self : DwLazyList) (w : Window)
  (lastVisibleElementInViewport : nat) (element : LazyChild) (index : nat)
  : nat * LazyChild * bool :=
  if active element then (lastVisibleElementInViewport, element, true)
  else if isInitialItem self index then
    (lastVisibleElementInViewport, activate element, true)
  else if nonContinuous self then
    if inExtendedViewport self w element then
      (lastVisibleElementInViewport, activate element, true)
    else (lastVisibleElementInViewport, element, true)
  else
    let lastVisibleElementInViewport :=
      updateLastVisible self w lastVisibleElementInViewport element index in
    if inPrerenderRange self w lastVisibleElementInViewport element index
    then (lastVisibleElementInViewport, activate element, true)
    else (lastVisibleElementInViewport, element, false).

(** The scan of [refresh]: the final bookkeeping value and the children. *)
Definition refresh_scan (self : DwLazyList) (w : Window)
  : nat * list LazyChild :=
  forEach (_findLazyChildren self) 0%nat (refresh_iteratee self w).

Definition refresh (self : DwLazyList) : DwLazyList :=
  let viewportLength := _findViewportLength self in
  let scrollLength := _findScorllLength self in
  let self := _refreshScrollProps self viewportLength scrollLength in
  let w := window self viewportLength scrollLength in
  let (_, cs) := refresh_scan self w in
  set_children self cs.

(** The engine has two entry points; a run is one call of either. *)
Inductive Run : Type := Refresh | InitialItemRefresh.

Definition engine_run (r : Run) (self : DwLazyList) : DwLazyList :=
  match r with
  | Refresh => refresh self
  | InitialItemRefresh => initialItemRefresh self
  end.

(** The [active] flags of the hosted sequence, in order. *)
Definition flags (self : DwLazyList) : list bool :=
  map active (children self).

(** What can happen to a list between and during engine runs: a run, or the
    host changing scroll position, geometry, item offsets or configuration
    (anything but the flags, which only the engine writes). *)
Inductive step : DwLazyList -> DwLazyList -> Prop :=
| step_run (r : Run) (s : DwLazyList) : step s (engine_run r s)
| step_host (s s' : DwLazyList) : flags s' = flags s -> step s s'.

(** ** How far a scan gets *)

(** [entry_state f index st l i] is the closure state with which the
    iteratee is called on the [i]-th element of [l], or [None] when the loop
    has stopped before it (or [l] has no such element). *)
Fixpoint entry_state {St A : Type}
  (iteratee : St -> A -> nat -> St * A * bool)
  (index : nat) (st : St) (collection : list A) (i : nat) : option St :=
  match collection with
  | [] => None
  | value :: rest =>
      match i with
      | O => Some st
      | S i' =>
          match iteratee st value index with
          | (st', _, true) => entry_state iteratee (S index) st' rest i'
          | (_, _, false) => None
          end
      end
  end.

(** ** Names used in the statements *)

(** The window of a [refresh] run on [self]. *)
Definition refresh_window (self : DwLazyList) : Window :=
  window self (_findViewportLength self) (_findScorllLength self).

(** [lastVisible_at self i = Some lv]: the scan of [refresh] reaches the
    [i]-th child, and [lastVisibleElementInViewport] is [lv] when the
    callback is entered for it. *)
Definition lastVisible_at (self : DwLazyList) (i : nat) : option nat :=
  entry_state (refresh_iteratee self (refresh_window self)) 0 0%nat
    (children self) i.

(** The [j]-th child is one at which the callback of [refresh] executes the
    bookkeeping assignment: it is not yet active, not an initial item, the
    list is continuous, and the child starts before [viewportBottom]. *)
Definition bookkeeps (self : DwLazyList) (j : nat) : bool :=
  match nth_error (children self) j with
  | Some e =>
      negb (active e) && negb (isInitialItem self j)
      && negb (nonContinuous self)
      && Qlt_bool (elStartPos self e) (viewportBottom (refresh_window self))
  | None => false
  end.

Definition set_prerenderItemsCount (self : DwLazyList) (n : option Z)
  : DwLazyList :=
  mkDwLazyList (direction self) (prerenderItemsPercentages self)
    (initialItemsCount self) n (nonContinuous self)
    (scrollTarget self) (_hasScroll self) (_scrollTop self)
    (_scrollBottom self) (children self).

(** ** Scenarios *)

(** A row of a vertical list. *)
Definition row (top : Q) (isActive : bool) : LazyChild :=
  mkLazyChild top 0 isActive.

(** A vertically scrolling element. *)
Definition pane (scrollOffset contentExtent viewportExtent : Q)
  : HTMLElement :=
  mkHTMLElement scrollOffset 0 contentExtent 0 viewportExtent 0
    viewportExtent 0.

(** A vertical list that scrolls itself, boundary flags not yet computed. *)
Definition lazyList (ratio : option Q) (initial count : option Z)
  (nonCont : bool) (target : HTMLElement) (rows : list LazyChild)
  : DwLazyList :=
  mkDwLazyList "VERTICAL" ratio initial count nonCont (Element target)
    false false false rows.

(** Rows at the given offsets, none active. *)
Definition rowsAt (tops : list Q) : list LazyChild :=
  map (fun top => row top false) tops.

(** Three rows 100 apart under the constructor's defaults, in a viewport of
    400 over content of 1000, scrolled to [scrollOffset]. *)
Definition threeRows (scrollOffset : Q) : DwLazyList :=
  lazyList (Some (1 # 2)) (Some 10%Z) None false (pane scrollOffset 1000 400)
    (rowsAt [0; 100; 200]).

(** Three rows in a viewport of zero extent, two initial items. *)
Definition zeroViewportRows : DwLazyList :=
  lazyList (Some (1 # 2)) (Some 2%Z) None false (pane 0 1000 0)
    (rowsAt [0; 5000; 6000]).

(** Two rows and [initialItemsCount = 0]; the first row is in view. *)
Definition noFloorRows : DwLazyList :=
  lazyList (Some (1 # 2)) (Some 0%Z) None false (pane 0 1000 400)
    (rowsAt [0; 5000]).

(** A non-continuous list of six rows, scrolled to 5000 in a viewport of
    400: row 4 lies far below the window, row 5 inside it. *)
Definition scatteredRows : DwLazyList :=
  lazyList (Some (1 # 2)) (Some 2%Z) (Some 3%Z) true (pane 5000 20000 400)
    (rowsAt [0; 100; 200; 300; 9000; 5100]).

(** A continuous list whose second row lies far below the window while the
    third lies inside it; one initial item, no [prerenderItemsCount]. *)
Definition unevenRows : DwLazyList :=
  lazyList (Some (1 # 2)) (Some 1%Z) None false (pane 0 20000 400)
    (rowsAt [0; 10000; 300]).

(** Sixteen rows under the constructor's defaults with
    [prerenderItemsCount = 3]: rows 0 to 10 are inside the viewport, rows 11
    to 14 start at 5000, far below [viewportExtendedBottom], and row 15 is
    inside the viewport again. *)
Definition trailingRows : DwLazyList :=
  lazyList (Some (1 # 2)) (Some 10%Z) (Some 3%Z) false (pane 0 20000 400)
    (rowsAt [0; 30; 60; 90; 120; 150; 180; 210; 240; 270; 300;
             5000; 5000; 5000; 5000; 350]).

(** Eleven rows inside the viewport that are already active, followed by
    three rows at 5000 that are not; [prerenderItemsCount = 3]. *)
Definition scrolledRows : DwLazyList :=
  lazyList (Some (1 # 2)) (Some 10%Z) (Some 3%Z) false (pane 0 20000 400)
    (map (fun top => row top true)
       [0; 30; 60; 90; 120; 150; 180; 210; 240; 270; 300]
     ++ rowsAt [5000; 5000; 5000]).

(** A continuous list collapsed to a viewport of zero extent over content of
    1000, scrolled to 100, with one initial item and
    [prerenderItemsCount = 1]. *)
Definition collapsedRows : DwLazyList :=
  lazyList (Some (1 # 2)) (Some 1%Z) (Some 1%Z) false (pane 100 1000 0)
    (rowsAt [0; 50; 5000; 5000]).

(** ** Construction *)

(** The constructor's assignments: vertical, a prerender ratio of one half,
    ten initial items, continuous, scrolling itself.  It assigns nothing to
    [prerenderItemsCount].  The element's own geometry and its slotted
    children come from the page. *)
Definition constructor (this : HTMLElement) (slotted : list LazyChild)
  : DwLazyList :=
  mkDwLazyList "VERTICAL" (Some (1 # 2)) (Some 10%Z) None false
    (Element this) false false false slotted.

(** ** Navigation helpers *)

Definition canScrollTop (self : DwLazyList) : bool :=
  Qgt_bool (_findScorllLength self) 0.

(** The list after the browser has replaced the geometry of its scrolling
    element (the document's scrolling element, or the target itself). *)
Definition set_scrollingElement (self : DwLazyList) (el : HTMLElement)
  : DwLazyList :=
  mkDwLazyList (direction self) (prerenderItemsPercentages self)
    (initialItemsCount self) (prerenderItemsCount self) (nonContinuous self)
    (match scrollTarget self with
     | Document _ => Document el
     | Element _ => Element el
     end)
    (_hasScroll self) (_scrollTop self) (_scrollBottom self) (children self).

(** [rows[index]] for an integer [index]: undefined outside the array. *)
Definition at_index {A : Type} (rows : list A) (index : Z) : option A :=
  if (index <? 0)%Z then None else nth_error rows (Z.to_nat index).

(** [scrollToIndex].  What assigning to [scrollTop] does to the scrolling
    element is the browser's business (clamping, smooth scrolling); it is the
    parameter [assignScrollTop]. *)
Definition scrollToIndex (assignScrollTop : HTMLElement -> Q -> HTMLElement)
  (self : DwLazyList) (index : Z) : DwLazyList :=
  let rows := _findLazyChildren self in
  match at_index rows index with
  | Some row =>
      let scrollingElement := _getScrollingElement self in
      set_scrollingElement self
        (assignScrollTop scrollingElement (offsetTop row))
  | None => self
  end.

(** A browser that applies an assignment to [scrollTop] at once and as
    given. *)
Definition assignNow (el : HTMLElement) (v : Q) : HTMLElement :=
  mkHTMLElement v (scrollLeft el) (scrollHeight el) (scrollWidth el)
    (clientHeight el) (clientWidth el) (offsetHeight el) (offsetWidth el).

(** ** The element on its page *)

(** The element together with what the page and its event loop hold for it:
    the debounced function stored in [_scrollToBottomDebouncer] (debounced
    functions are numbered in order of creation); whether [refresh] is
    registered as the window's resize listener; which object
    [this.scrollTarget] currently is (objects are numbered; the element
    itself is 0) and on which objects [refresh] is registered as scroll
    listener; the debounced functions whose timer is running; and the number
    of callbacks waiting on [updateComplete]. *)
Record Page : Type := mkPage {
  this : DwLazyList;
  _scrollToBottomDebouncer : option nat;
  listening : bool;
  scrollTargetId : nat;
  scrollListeners : list nat;
  timers : list nat;
  thens : nat;
  debounced : nat
}.

(** [debouncer && debouncer.cancel()]: a running timer of that debounced
    function is cleared. *)
Definition cancel (debouncer : option nat) (running : list nat) : list nat :=
  match debouncer with
  | Some d => remove Nat.eq_dec d running
  | None => running
  end.

(** [target.addEventListener('scroll', self.refresh)]: registering the same
    function on the same object twice registers it once. *)
Definition addEventListener (target : nat) (registered : list nat)
  : list nat :=
  if in_dec Nat.eq_dec target registered then registered
  else target :: registered.

(** [target.removeEventListener('scroll', self.refresh)] *)
Definition removeEventListener (target : nat) (registered : list nat)
  : list nat :=
  remove Nat.eq_dec target registered.

(** [scrollTop + clientHeight >= scrollHeight] *)
Definition hasReachedBottom (scrollingElement : HTMLElement) : bool :=
  Qle_bool (scrollHeight scrollingElement)
    (scrollTop scrollingElement + clientHeight scrollingElement).

(** [scrollToBottom], up to the call that starts the new timer. *)
Definition scrollToBottom (assignScrollTop : HTMLElement -> Q -> HTMLElement)
  (p : Page) : Page :=
  let scrollingElement := _getScrollingElement (this p) in
  if hasReachedBottom scrollingElement then p
  else
    let scrolled :=
      set_scrollingElement (this p)
        (assignScrollTop scrollingElement (scrollHeight scrollingElement)) in
    let running := cancel (_scrollToBottomDebouncer p) (timers p) in
    let debouncer := debounced p in
    mkPage scrolled (Some debouncer) (listening p) (scrollTargetId p)
      (scrollListeners p) (debouncer :: running) (thens p) (S (debounced p)).

(** The timer of debounced function [d] runs out: its callback hands the
    check to [updateComplete]. *)
Definition timerFires (p : Page) (d : nat) : Page :=
  mkPage (this p) (_scrollToBottomDebouncer p) (listening p)
    (scrollTargetId p) (scrollListeners p)
    (remove Nat.eq_dec d (timers p)) (S (thens p)) (debounced p).

(** A callback waiting on [updateComplete] runs.  It tests the scrolling
    element that [scrollToBottom] had in hand when it created the callback;
    [captured] is that element as it is now.  Nothing happens when it has
    reached the bottom; otherwise [scrollToBottom] is called again, on
    whatever the scrolling element is by then. *)
Definition recheck (assignScrollTop : HTMLElement -> Q -> HTMLElement)
  (captured : HTMLElement) (p : Page) : Page :=
  let p' :=
    mkPage (this p) (_scrollToBottomDebouncer p) (listening p)
      (scrollTargetId p) (scrollListeners p) (timers p)
      (pred (thens p)) (debounced p) in
  if hasReachedBottom captured then p'
  else scrollToBottom assignScrollTop p'.

(** [connectedCallback]: [refresh] becomes the window's resize listener and
    a scroll listener of the current [scrollTarget]. *)
Definition connectedCallback (p : Page) : Page :=
  mkPage (this p) (_scrollToBottomDebouncer p) true (scrollTargetId p)
    (addEventListener (scrollTargetId p) (scrollListeners p))
    (timers p) (thens p) (debounced p).

(** [disconnectedCallback]: the resize listener is removed from the window
    and the scroll listener from the current [scrollTarget]; the stored
    debounced function is cancelled and forgotten. *)
Definition disconnectedCallback (p : Page) : Page :=
  mkPage (this p) None false (scrollTargetId p)
    (removeEventListener (scrollTargetId p) (scrollListeners p))
    (cancel (_scrollToBottomDebouncer p) (timers p))
    (thens p) (debounced p).

(** A freshly constructed element, not yet connected; it is its own
    [scrollTarget]. *)
Definition newPage (el : HTMLElement) (slotted : list LazyChild) : Page :=
  mkPage (constructor el slotted) None false 0 [] [] 0 0.

(** What can happen on the page: the host calls a method, a timer runs out,
    a waiting callback runs (the page decides what the element it captured
    looks like by then), or the page changes the list (layout, scrolling,
    properties, children, engine runs) and which object its [scrollTarget]
    is. *)
Inductive page_step (assignScrollTop : HTMLElement -> Q -> HTMLElement)
  : Page -> Page -> Prop :=
| page_scrollToBottom (p : Page) :
    page_step assignScrollTop p (scrollToBottom assignScrollTop p)
| page_timerFires (p : Page) (d : nat) :
    In d (timers p) -> page_step assignScrollTop p (timerFires p d)
| page_recheck (p : Page) (captured : HTMLElement) :
    (0 < thens p)%nat ->
    page_step assignScrollTop p (recheck assignScrollTop captured p)
| page_connected (p : Page) :
    page_step assignScrollTop p (connectedCallback p)
| page_disconnected (p : Page) :
    page_step assignScrollTop p (disconnectedCallback p)
| page_changes (p : Page) (l : DwLazyList) (target : nat) :
    page_step assignScrollTop p
      (mkPage l (_scrollToBottomDebouncer p) (listening p) target
         (scrollListeners p) (timers p) (thens p) (debounced p)).

(** The active children form a leading block: no active child comes after an
    inactive one. *)
Fixpoint isLeadingBlock (l : list bool) : bool :=
  match l with
  | [] => true
  | true :: rest => isLeadingBlock rest
  | false :: rest => forallb negb rest
  end.

(** Five rows, laid out top to bottom 200 apart, in a continuous list with
    no initial items, scrolled to 300 in a viewport of 400. *)
Definition stackedRows : DwLazyList :=
  lazyList (Some (1 # 2)) None None false (pane 300 1000 400)
    (rowsAt [0; 200; 400; 600; 800]).

(** A horizontal continuous list of three columns, scrolled to the left
    edge. *)
Definition columns : DwLazyList :=
  mkDwLazyList "HORIZONTAL" (Some (1 # 2)) None None false
    (Element (mkHTMLElement 0 0 300 5000 300 400 300 400))
    false false false
    [mkLazyChild 0 0 false; mkLazyChild 0 300 false; mkLazyChild 0 2000 false].

(** A browser that has not moved yet when the assignment returns (a smooth
    scroll that is still to start). *)
Definition assignLater (el : HTMLElement) (v : Q) : HTMLElement := el.

(** Every running timer belongs to the debounced function that the element
    currently stores, and there is at most one. *)
Definition timersOwned (p : Page) : Prop :=
  timers p = [] \/
  exists d, _scrollToBottomDebouncer p = Some d /\ timers p = [d].

(** A page whose content of 1000 is taller than its viewport of 400. *)
Definition tallPage : Page :=
  newPage (pane 0 1000 400) (rowsAt [0; 100; 200]).

(** The rows of [stackedRows] turned into columns: the same offsets and
    lengths along the horizontal axis, unrelated values along the vertical
    one. *)
Definition stackedColumns : DwLazyList :=
  mkDwLazyList "HORIZONTAL" (Some (1 # 2)) None None false
    (Element (mkHTMLElement 77 300 50 1000 60 400 60 400))
    false false false
    (map (fun left => mkLazyChild 9999 left false) [0; 200; 400; 600; 800]).

(** [tallPage] after it was connected, its [scrollTarget] was then replaced
    by another object (numbered 1), and [scrollToBottom] was called. *)
Definition retargetedPage : Page :=
  scrollToBottom assignLater
    (mkPage (this tallPage) None true 1 [0%nat] [] 0 0).

(** A collapsed continuous list whose second row lies beyond the scroll
    offset while the third lies before it; one initial item, no
    [prerenderItemsCount]. *)
Definition collapsedUnevenRows : DwLazyList :=
  lazyList (Some (1 # 2)) (Some 1%Z) None false (pane 100 1000 0)
    (rowsAt [0; 5000; 50]).

(** ** Facts about numbers *)

Lemma Qlt_bool_iff (x y : Q) : Qlt_bool x y = true <-> x < y.
Proof.
  unfold Qlt_bool. rewrite negb_true_iff, <- not_true_iff_false, Qle_bool_iff.
  split; [apply Qnot_le_lt | apply Qlt_not_le].
Qed.

Lemma Qlt_bool_false_iff (x y : Q) : Qlt_bool x y = false <-> y <= x.
Proof.
  unfold Qlt_bool. rewrite negb_false_iff. apply Qle_bool_iff.
Qed.

Lemma Qlt_bool_spec (x y : Q) : reflect (x < y) (Qlt_bool x y).
Proof.
  apply iff_reflect. symmetry. apply Qlt_bool_iff.
Qed.

(** ** Facts about [forEach] *)

Section ForEach.
Context {St A : Type} (f : St -> A -> nat -> St * A * bool).

Lemma forEach_from_length (l : list A) :
  forall index st,
    List.length (snd (forEach_from f index st l)) = List.length l.
Proof.
  induction l as [|x l IH]; intros index st; simpl; [reflexivity|].
  destruct (f st x index) as [[st' x'] [|]]; simpl; [|reflexivity].
  specialize (IH (S index) st').
  destruct (forEach_from f (S index) st' l); simpl in *. now rewrite IH.
Qed.

(** An element the scan reaches is replaced by what the iteratee makes of
    it; an element it does not reach is left as it was. *)
Lemma forEach_from_nth (l : list A) :
  forall index st i,
    nth_error (snd (forEach_from f index st l)) i =
    match entry_state f index st l i, nth_error l i with
    | Some sti, Some x => Some (snd (fst (f sti x (index + i)%nat)))
    | _, r => r
    end.
Proof.
  induction l as [|x l IH]; intros index st i; simpl.
  - now destruct i.
  - destruct i as [|i]; simpl.
    + rewrite Nat.add_0_r.
      destruct (f st x index) as [[st' x'] [|]]; simpl; [|reflexivity].
      now destruct (forEach_from f (S index) st' l).
    + destruct (f st x index) as [[st' x'] [|]]; simpl.
      * specialize (IH (S index) st' i).
        destruct (forEach_from f (S index) st' l); simpl in *.
        rewrite IH. now rewrite Nat.add_succ_r.
      * now destruct (nth_error l i).
Qed.

(** A scan that reaches an element has reached every element before it. *)
Lemma entry_state_earlier (l : list A) :
  forall index st i j sti,
    entry_state f index st l i = Some sti -> (j <= i)%nat ->
    exists stj, entry_state f index st l j = Some stj.
Proof.
  induction l as [|x l IH]; intros index st i j sti Hi Hj; simpl in *.
  - discriminate.
  - destruct j as [|j]; [now eexists|].
    destruct i as [|i]; [lia|].
    destruct (f st x index) as [[st' x'] [|]]; [|discriminate].
    apply (IH _ _ i j sti Hi). lia.
Qed.

(** Stepping the entry state: the scan reaches element [S i] exactly when
    it reached element [i] and the iteratee returned [true] there. *)
Lemma entry_state_succ (l : list A) :
  forall index st i,
    entry_state f index st l (S i) =
    match entry_state f index st l i, nth_error l i, nth_error l (S i) with
    | Some sti, Some x, Some _ =>
        match f sti x (index + i)%nat with
        | (st', _, true) => Some st'
        | (_, _, false) => None
        end
    | _, _, _ => None
    end.
Proof.
  induction l as [|x l IH]; intros index st i; [reflexivity|].
  destruct i as [|i].
  - simpl. rewrite Nat.add_0_r.
    destruct (f st x index) as [[st' x'] [|]]; destruct l; reflexivity.
  - change (entry_state f index st (x :: l) (S (S i)))
      with (match f st x index with
            | (st', _, true) => entry_state f (S index) st' l (S i)
            | (_, _, false) => None
            end).
    change (entry_state f index st (x :: l) (S i))
      with (match f st x index with
            | (st', _, true) => entry_state f (S index) st' l i
            | (_, _, false) => None
            end).
    change (nth_error (x :: l) (S i)) with (nth_error l i).
    change (nth_error (x :: l) (S (S i))) with (nth_error l (S i)).
    destruct (f st x index) as [[st' x'] [|]]; [|reflexivity].
    rewrite IH. now rewrite Nat.add_succ_r.
Qed.
End ForEach.

(** ** What a run does to the record *)

Lemma refresh_children (s : DwLazyList) :
  children (refresh s) =
  snd (refresh_scan s (window s (_findViewportLength s) (_findScorllLength s))).
Proof.
  unfold refresh.
  change (refresh_scan
            (_refreshScrollProps s (_findViewportLength s)
               (_findScorllLength s)))
    with (refresh_scan s).
  change (window
            (_refreshScrollProps s (_findViewportLength s)
               (_findScorllLength s)))
    with (window s).
  now destruct (refresh_scan s _).
Qed.

Lemma initialItemRefresh_children (s : DwLazyList) :
  children (initialItemRefresh s) =
  snd (forEach (children s) tt (initialItemRefresh_iteratee s)).
Proof.
  unfold initialItemRefresh, _findLazyChildren.
  change (initialItemRefresh_iteratee
            (_refreshScrollProps s (_findViewportLength s)
               (_findScorllLength s)))
    with (initialItemRefresh_iteratee s).
  change (children
            (_refreshScrollProps s (_findViewportLength s)
               (_findScorllLength s)))
    with (children s).
  now destruct (forEach (children s) tt _).
Qed.

(** Neither callback touches an element that is already active. *)
Lemma refresh_iteratee_active (s : DwLazyList) (w : Window) (lv : nat)
  (e : LazyChild) (i : nat) :
  active e = true -> refresh_iteratee s w lv e i = (lv, e, true).
Proof. intros H. unfold refresh_iteratee. now rewrite H. Qed.

Lemma initialItemRefresh_iteratee_active (s : DwLazyList) (st : unit)
  (e : LazyChild) (i : nat) :
  active e = true -> initialItemRefresh_iteratee s st e i = (st, e, true).
Proof. intros H. unfold initialItemRefresh_iteratee. now rewrite H. Qed.

Lemma forEach_from_keeps {St : Type}
  (f : St -> LazyChild -> nat -> St * LazyChild * bool)
  (Hf : forall st e i, active e = true -> snd (fst (f st e i)) = e)
  (l : list LazyChild) (index : nat) (st : St) (i : nat) (e : LazyChild) :
  nth_error l i = Some e -> active e = true ->
  nth_error (snd (forEach_from f index st l)) i = Some e.
Proof.
  intros Hi Ha. rewrite forEach_from_nth, Hi.
  destruct (entry_state f index st l i); [|reflexivity].
  now rewrite Hf.
Qed.

Lemma engine_run_keeps (r : Run) (s : DwLazyList) (i : nat) (e : LazyChild) :
  nth_error (children s) i = Some e -> active e = true ->
  nth_error (children (engine_run r s)) i = Some e.
Proof.
  intros Hi Ha. destruct r; simpl.
  - rewrite refresh_children. unfold refresh_scan, forEach, _findLazyChildren.
    apply forEach_from_keeps; auto.
    intros st e' i' H. now rewrite refresh_iteratee_active.
  - rewrite initialItemRefresh_children. unfold forEach.
    apply forEach_from_keeps; auto.
    intros st e' i' H. now rewrite initialItemRefresh_iteratee_active.
Qed.

Lemma flags_nth (s : DwLazyList) (i : nat) (b : bool) :
  nth_error (flags s) i = Some b <->
  exists e, nth_error (children s) i = Some e /\ active e = b.
Proof.
  unfold flags. rewrite nth_error_map.
  destruct (nth_error (children s) i) as [e|]; simpl; split.
  - intros [= <-]. now exists e.
  - now intros (e' & [= <-] & <-).
  - discriminate.
  - now intros (e' & [=] & _).
Qed.

Lemma step_keeps (s s' : DwLazyList) (i : nat) :
  step s s' ->
  nth_error (flags s) i = Some true -> nth_error (flags s') i = Some true.
Proof.
  intros [r s0|s0 s1 Heq] H.
  - apply flags_nth in H as (e & Hi & Ha). apply flags_nth.
    exists e. split; [now apply engine_run_keeps | assumption].
  - now rewrite Heq.
Qed.

(** ** Activation is a latch *)

(** C1. Activation is a one-way latch: along every sequence of engine runs
    ([refresh] or [initialItemRefresh]), interleaved with arbitrary changes
    of scroll state, geometry and configuration by the host, an item whose
    [active] flag is true keeps it true; nothing the engine does sets
    [active] back to false. *)
Theorem active_is_latch (s s' : DwLazyList) (i : nat) :
  clos_refl_trans_1n DwLazyList step s s' ->
  nth_error (flags s) i = Some true ->
  nth_error (flags s') i = Some true.
Proof.
  induction 1 as [s|s s1 s2 Hstep _ IH]; intros Hi; [assumption|].
  apply IH. now apply (step_keeps s s1).
Qed.

Lemma active_is_latch_witness :
  nth_error (flags (refresh (threeRows 0))) 1 = Some true /\
  nth_error
    (flags (initialItemRefresh (refresh (threeRows 600)))) 1 = Some true.
Proof.
  split; [reflexivity|].
  apply (active_is_latch (refresh (threeRows 0))).
  - apply Relation_Operators.rt1n_trans with (y := refresh (threeRows 600)).
    { apply step_host. reflexivity. }
    apply Relation_Operators.rt1n_trans with (y := engine_run InitialItemRefresh
                                  (refresh (threeRows 600))).
    { apply step_run. }
    apply Relation_Operators.rt1n_refl.
  - reflexivity.
Defined.

(** ** Boundary flags *)

Lemma engine_run_scrollProps (r : Run) (s : DwLazyList) :
  _hasScroll (engine_run r s)
  = Qgt_bool (_findContentLength s) (_findViewportLength s) /\
  _scrollTop (engine_run r s)
  = (Qgt_bool (_findContentLength s) (_findViewportLength s)
     && Qeq_bool (_findScorllLength s) 0) /\
  _scrollBottom (engine_run r s)
  = (Qgt_bool (_findContentLength s) (_findViewportLength s)
     && Qeq_bool (_findContentLength s)
          (_findViewportLength s + _findScorllLength s)).
Proof.
  destruct r; simpl.
  - unfold refresh. destruct (refresh_scan _ _). repeat split.
  - unfold initialItemRefresh. destruct (forEach _ _ _). repeat split.
Qed.

(** C6. On every run (of either entry point) the three boundary flags are
    functions of the viewport state alone: [hasScroll] is
    [contentExtent > viewportExtent], [atTop] is [hasScroll] and
    [scrollOffset == 0], [atBottom] is [hasScroll] and
    [contentExtent == viewportExtent + scrollOffset].  For content 1000 in a
    viewport of 400 at offset 0 they are true, true, false; at offset 600
    [atBottom] is true; for content 400 in a viewport of 400 [hasScroll] is
    false at every offset. *)
Theorem boundary_flags (r : Run) (s : DwLazyList) :
  let contentExtent := _findContentLength s in
  let viewportExtent := _findViewportLength s in
  let scrollOffset := _findScorllLength s in
  let s' := engine_run r s in
  (_hasScroll s' = Qgt_bool contentExtent viewportExtent /\
   _scrollTop s' = (_hasScroll s' && Qeq_bool scrollOffset 0) /\
   _scrollBottom s'
   = (_hasScroll s' && Qeq_bool contentExtent (viewportExtent + scrollOffset)))
  /\ (contentExtent == 1000 -> viewportExtent == 400 -> scrollOffset == 0 ->
      _hasScroll s' = true /\ _scrollTop s' = true /\ _scrollBottom s' = false)
  /\ (contentExtent == 1000 -> viewportExtent == 400 -> scrollOffset == 600 ->
      _scrollBottom s' = true)
  /\ (contentExtent == 400 -> viewportExtent == 400 -> _hasScroll s' = false).
Proof.
  intros c v o s'.
  destruct (engine_run_scrollProps r s) as (Hh & Ht & Hb).
  fold c v o s' in Hh, Ht, Hb.
  assert (Hgt : forall a b, a == 1000 -> b == 400 -> Qgt_bool a b = true).
  { intros a b Ha Hb'. apply Qlt_bool_iff. rewrite Ha, Hb'. reflexivity. }
  split; [|split; [|split]].
  - repeat split; [exact Hh | now rewrite Ht, Hh | now rewrite Hb, Hh].
  - intros Hc Hv Ho. rewrite Hh, Ht, Hb, Hgt by assumption. simpl.
    repeat split.
    + now apply Qeq_bool_iff.
    + rewrite <- not_true_iff_false, Qeq_bool_iff, Hc, Hv, Ho. discriminate.
  - intros Hc Hv Ho. rewrite Hb, Hgt by assumption. apply Qeq_bool_iff.
    rewrite Hc, Hv, Ho. reflexivity.
  - intros Hc Hv. rewrite Hh. apply Qlt_bool_false_iff. rewrite Hc, Hv.
    apply Qle_refl.
Qed.

Lemma boundary_flags_witness :
  (_hasScroll (refresh (threeRows 0)) = true /\
   _scrollTop (refresh (threeRows 0)) = true /\
   _scrollBottom (refresh (threeRows 0)) = false) /\
  _scrollBottom (refresh (threeRows 600)) = true /\
  _hasScroll
    (initialItemRefresh
       (lazyList None None None false (pane 7 400 400) (rowsAt [0])))
  = false.
Proof.
  split; [|split].
  - apply (boundary_flags Refresh (threeRows 0)); reflexivity.
  - apply (boundary_flags Refresh (threeRows 600)); reflexivity.
  - apply (boundary_flags InitialItemRefresh
             (lazyList None None None false (pane 7 400 400) (rowsAt [0])));
      reflexivity.
Defined.

(** ** Reaching and stopping *)

Section Reach.
Context {St A : Type} (f : St -> A -> nat -> St * A * bool).

(** The scan reaches element [i] if the iteratee returns [true] on every
    element before it. *)
Lemma entry_state_reach (l : list A) :
  forall index st i,
    (forall j x st', (j < i)%nat -> nth_error l j = Some x ->
                     snd (f st' x (index + j)%nat) = true) ->
    (i < List.length l)%nat ->
    exists sti, entry_state f index st l i = Some sti.
Proof.
  induction l as [|x l IH]; intros index st i Hf Hi; simpl in *; [lia|].
  destruct i as [|i]; [now eexists|].
  pose proof (Hf 0%nat x st ltac:(lia) eq_refl) as H0.
  rewrite Nat.add_0_r in H0.
  destruct (f st x index) as [[st' x'] b]; simpl in H0; subst b.
  apply IH; [|lia].
  intros j y st'' Hj Hy. rewrite Nat.add_succ_l, <- Nat.add_succ_r.
  apply Hf; [lia | exact Hy].
Qed.

(** Once the iteratee has returned [false], no later element is reached. *)
Lemma entry_state_stop (l : list A) (index : nat) (st sti : St) (i : nat)
  (x : A) :
  entry_state f index st l i = Some sti ->
  nth_error l i = Some x ->
  snd (f sti x (index + i)%nat) = false ->
  forall j, (i < j)%nat -> entry_state f index st l j = None.
Proof.
  intros Hi Hx Hfalse j Hj.
  destruct (entry_state f index st l j) as [stj|] eqn:E; [|reflexivity].
  destruct (entry_state_earlier f l index st j (S i) stj E Hj) as [s1 H1].
  rewrite entry_state_succ, Hi, Hx in H1.
  destruct (f sti x (index + i)%nat) as [[st' x'] b]; simpl in Hfalse.
  subst b. destruct (nth_error l (S i)); discriminate.
Qed.

(** Two iteratees that agree everywhere scan alike. *)
Lemma forEach_from_ext (g : St -> A -> nat -> St * A * bool) (l : list A) :
  (forall st x i, f st x i = g st x i) ->
  forall index st, forEach_from f index st l = forEach_from g index st l.
Proof.
  intros Hfg. induction l as [|x l IH]; intros index st; simpl.
  - reflexivity.
  - rewrite Hfg. destruct (g st x index) as [[st' x'] [|]]; [|reflexivity].
    now rewrite IH.
Qed.
End Reach.

(** ** Initial items *)

Lemma isInitialItem_iff (s : DwLazyList) (i : nat) :
  isInitialItem s i = true <->
  exists n, initialItemsCount s = Some n /\ (Z.of_nat i < n)%Z.
Proof.
  unfold isInitialItem, truthy, index_lt.
  destruct (initialItemsCount s) as [n|]; simpl.
  - rewrite andb_true_iff, negb_true_iff, Z.eqb_neq, Z.ltb_lt. split.
    + intros [_ H]. now exists n.
    + intros (m & [= <-] & H). split; [lia | assumption].
  - split; [discriminate | now intros (n & [=] & _)].
Qed.

Lemma isInitialItem_earlier (s : DwLazyList) (i j : nat) :
  isInitialItem s i = true -> (j <= i)%nat -> isInitialItem s j = true.
Proof.
  rewrite !isInitialItem_iff. intros (n & Hn & Hi) Hj.
  exists n. split; [assumption | lia].
Qed.

(** Both callbacks return [true] on an initial item. *)
Lemma refresh_iteratee_initial (s : DwLazyList) (w : Window) (lv : nat)
  (e : LazyChild) (i : nat) :
  isInitialItem s i = true ->
  refresh_iteratee s w lv e i
  = (lv, if active e then e else activate e, true).
Proof.
  intros H. unfold refresh_iteratee. rewrite H. now destruct (active e).
Qed.

Lemma initialItemRefresh_iteratee_initial (s : DwLazyList) (st : unit)
  (e : LazyChild) (i : nat) :
  isInitialItem s i = true ->
  initialItemRefresh_iteratee s st e i
  = (st, if active e then e else activate e, true).
Proof.
  intros H. unfold initialItemRefresh_iteratee. rewrite H.
  now destruct (active e).
Qed.

(** The scan of either run reaches every initial item. *)
Lemma refresh_reaches_initial (s : DwLazyList) (i : nat) :
  isInitialItem s i = true -> (i < List.length (children s))%nat ->
  exists lv, lastVisible_at s i = Some lv.
Proof.
  intros Hi Hlen. apply entry_state_reach; [|assumption].
  intros j x st' Hj Hx. rewrite refresh_iteratee_initial; [reflexivity|].
  apply (isInitialItem_earlier s i); [assumption | simpl; lia].
Qed.

Lemma initialItemRefresh_reaches_initial (s : DwLazyList) (i : nat) :
  isInitialItem s i = true -> (i < List.length (children s))%nat ->
  exists st,
    entry_state (initialItemRefresh_iteratee s) 0 tt (children s) i = Some st.
Proof.
  intros Hi Hlen. apply entry_state_reach; [|assumption].
  intros j x st' Hj Hx.
  rewrite initialItemRefresh_iteratee_initial; [reflexivity|].
  apply (isInitialItem_earlier s i); [assumption | simpl; lia].
Qed.

(** What [initialItemRefresh] makes of each child. *)
Lemma initialItemRefresh_nth (s : DwLazyList) (i : nat) (e : LazyChild) :
  nth_error (children s) i = Some e ->
  nth_error (children (initialItemRefresh s)) i
  = Some (if isInitialItem s i && negb (active e) then activate e else e).
Proof.
  intros He. rewrite initialItemRefresh_children. unfold forEach.
  rewrite forEach_from_nth, He. simpl.
  destruct (entry_state _ 0 tt (children s) i) as [st|] eqn:E.
  - unfold initialItemRefresh_iteratee.
    destruct (active e), (isInitialItem s i); reflexivity.
  - destruct (isInitialItem s i) eqn:Hi; [|reflexivity].
    destruct (initialItemRefresh_reaches_initial s i Hi) as [st Hst].
    + apply nth_error_Some. now rewrite He.
    + unfold forEach in *. congruence.
Qed.

(** What [refresh] makes of a child its scan reaches, and of one it does
    not reach. *)
Lemma refresh_nth (s : DwLazyList) (i : nat) (e : LazyChild) :
  nth_error (children s) i = Some e ->
  nth_error (children (refresh s)) i
  = match lastVisible_at s i with
    | Some lv =>
        Some (snd (fst (refresh_iteratee s (refresh_window s) lv e i)))
    | None => Some e
    end.
Proof.
  intros He. rewrite refresh_children.
  unfold refresh_scan, forEach, _findLazyChildren.
  rewrite forEach_from_nth, He. reflexivity.
Qed.

Lemma initialItemRefresh_length (s : DwLazyList) :
  List.length (children (initialItemRefresh s)) = List.length (children s).
Proof.
  rewrite initialItemRefresh_children. apply forEach_from_length.
Qed.

Lemma refresh_length (s : DwLazyList) :
  List.length (children (refresh s)) = List.length (children s).
Proof.
  rewrite refresh_children. apply forEach_from_length.
Qed.

(** C10. [initialItemRefresh] applies no geometric criterion: whatever the
    offsets, the scroll offset and the viewport extent, it makes every child
    with index below [initialItemsCount] active, leaves every other child
    exactly as it was, and changes nothing else of the list besides the
    three boundary flags (the configuration, the scroll target and the
    number, order and offsets of the children stay). *)
Theorem initialItemRefresh_frame (s : DwLazyList) :
  let s' := initialItemRefresh s in
  (direction s' = direction s /\
   prerenderItemsPercentages s' = prerenderItemsPercentages s /\
   initialItemsCount s' = initialItemsCount s /\
   prerenderItemsCount s' = prerenderItemsCount s /\
   nonContinuous s' = nonContinuous s /\
   scrollTarget s' = scrollTarget s) /\
  List.length (children s') = List.length (children s) /\
  (forall i e, nth_error (children s) i = Some e ->
     exists e', nth_error (children s') i = Some e' /\
       offsetTop e' = offsetTop e /\ offsetLeft e' = offsetLeft e /\
       active e' = (active e || isInitialItem s i)) /\
  (forall i e, nth_error (children s) i = Some e ->
     isInitialItem s i = false -> nth_error (children s') i = Some e).
Proof.
  intros s'. split; [|split; [|split]].
  - subst s'. unfold initialItemRefresh.
    destruct (forEach _ _ _). repeat split.
  - apply initialItemRefresh_length.
  - intros i e He. subst s'. rewrite (initialItemRefresh_nth s i e He).
    eexists. split; [reflexivity|].
    destruct (isInitialItem s i), (active e) eqn:Ha; simpl; auto.
  - intros i e He Hi. subst s'. rewrite (initialItemRefresh_nth s i e He).
    now rewrite Hi.
Qed.

Lemma initialItemRefresh_frame_witness :
  (exists e', nth_error (children (initialItemRefresh (threeRows 600))) 2
              = Some e' /\
     offsetTop e' = 200 /\ offsetLeft e' = 0 /\ active e' = true) /\
  nth_error
    (children
       (initialItemRefresh
          (lazyList None (Some 1%Z) None false (pane 0 1000 400)
             (rowsAt [0; 100])))) 1
  = Some (row 100 false).
Proof.
  split.
  - destruct (initialItemRefresh_frame (threeRows 600)) as (_ & _ & H & _).
    apply (H 2%nat (row 200 false)). reflexivity.
  - destruct (initialItemRefresh_frame
                (lazyList None (Some 1%Z) None false (pane 0 1000 400)
                   (rowsAt [0; 100]))) as (_ & _ & _ & H).
    apply (H 1%nat (row 100 false)); reflexivity.
Defined.

(** ** Why a child becomes active *)

(** A child that [refresh] turns active was reached by the scan and passed
    one of the callback's tests. *)
Lemma refresh_newly_active (s : DwLazyList) (i : nat) (e : LazyChild) :
  nth_error (children s) i = Some e -> active e = false ->
  nth_error (flags (refresh s)) i = Some true ->
  exists lv, lastVisible_at s i = Some lv /\
    (isInitialItem s i = true \/
     isInitialItem s i = false /\
     if nonContinuous s
     then inExtendedViewport s (refresh_window s) e = true
     else inPrerenderRange s (refresh_window s)
            (updateLastVisible s (refresh_window s) lv e i) e i = true).
Proof.
  intros He Ha Hflag. apply flags_nth in Hflag as (e' & He' & Ha').
  rewrite (refresh_nth s i e He) in He'.
  destruct (lastVisible_at s i) as [lv|]; [|congruence].
  exists lv. split; [reflexivity|].
  injection He' as <-. unfold refresh_iteratee in Ha'. rewrite Ha in Ha'.
  destruct (isInitialItem s i); [now left | right; split; [reflexivity|]].
  destruct (nonContinuous s).
  - destruct (inExtendedViewport _ _ _); [reflexivity | simpl in Ha'; congruence].
  - destruct (inPrerenderRange _ _ _ _ _);
      [reflexivity | simpl in Ha'; congruence].
Qed.

(** C7. Initial floor: whatever the scroll offset, the content extent and
    the viewport extent (zero included), after a run of either entry point
    every child with index below [initialItemsCount = N] is active.  With
    [initialItemsCount = 0] there is no floor: no index counts as an initial
    item, [initialItemRefresh] leaves the children as they were, and a child
    that [refresh] turns active passed the test of the list's mode. *)
Theorem initial_floor (r : Run) (s : DwLazyList) :
  (forall N i, initialItemsCount s = Some N -> (Z.of_nat i < N)%Z ->
     (i < List.length (children s))%nat ->
     nth_error (flags (engine_run r s)) i = Some true) /\
  (initialItemsCount s = Some 0%Z ->
     (forall i, isInitialItem s i = false) /\
     children (initialItemRefresh s) = children s /\
     (forall i e, nth_error (children s) i = Some e -> active e = false ->
        nth_error (flags (refresh s)) i = Some true ->
        exists lv, lastVisible_at s i = Some lv /\
          if nonContinuous s
          then inExtendedViewport s (refresh_window s) e = true
          else inPrerenderRange s (refresh_window s)
                 (updateLastVisible s (refresh_window s) lv e i) e i = true)).
Proof.
  split.
  - intros N i HN Hi Hlen.
    assert (Hinit : isInitialItem s i = true).
    { apply isInitialItem_iff. now exists N. }
    destruct (nth_error (children s) i) as [e|] eqn:He;
      [|apply nth_error_None in He; lia].
    apply flags_nth. destruct r; simpl.
    + destruct (refresh_reaches_initial s i Hinit Hlen) as [lv Hlv].
      rewrite (refresh_nth s i e He), Hlv, refresh_iteratee_initial by easy.
      eexists. split; [reflexivity|]. simpl. now destruct (active e) eqn:Ha.
    + rewrite (initialItemRefresh_nth s i e He), Hinit.
      eexists. split; [reflexivity|]. now destruct (active e) eqn:Ha.
  - intros H0.
    assert (Hno : forall i, isInitialItem s i = false).
    { intros i. unfold isInitialItem. now rewrite H0. }
    split; [exact Hno | split].
    + apply nth_error_ext. intros i.
      destruct (nth_error (children s) i) as [e|] eqn:He.
      * now rewrite (initialItemRefresh_nth s i e He), Hno.
      * apply nth_error_None. rewrite initialItemRefresh_length.
        now apply nth_error_None.
    + intros i e He Ha Hflag.
      destruct (refresh_newly_active s i e He Ha Hflag) as (lv & Hlv & H).
      exists lv. split; [assumption|].
      destruct H as [H|[_ H]]; [rewrite Hno in H; discriminate | exact H].
Qed.

Lemma initial_floor_witness :
  nth_error (flags (initialItemRefresh zeroViewportRows)) 1 = Some true /\
  nth_error (flags (refresh zeroViewportRows)) 1 = Some true /\
  children (initialItemRefresh noFloorRows) = children noFloorRows /\
  exists lv, lastVisible_at noFloorRows 0 = Some lv /\
    inPrerenderRange noFloorRows (refresh_window noFloorRows)
      (updateLastVisible noFloorRows (refresh_window noFloorRows) lv
         (row 0 false) 0) (row 0 false) 0 = true.
Proof.
  split; [|split; [|split]].
  - apply (proj1 (initial_floor InitialItemRefresh zeroViewportRows) 2%Z);
      [reflexivity | lia | simpl; lia].
  - apply (proj1 (initial_floor Refresh zeroViewportRows) 2%Z);
      [reflexivity | lia | simpl; lia].
  - apply (proj2 (initial_floor Refresh noFloorRows) eq_refl).
  - apply (proj2 (initial_floor Refresh noFloorRows) eq_refl);
      reflexivity.
Defined.

(** ** Non-continuous lists *)

Lemma refresh_iteratee_nonContinuous (s : DwLazyList) (w : Window) (lv : nat)
  (e : LazyChild) (i : nat) :
  nonContinuous s = true ->
  refresh_iteratee s w lv e i
  = (lv,
     if active e then e
     else if isInitialItem s i || inExtendedViewport s w e then activate e
          else e,
     true).
Proof.
  intros H. unfold refresh_iteratee. rewrite H.
  destruct (active e), (isInitialItem s i), (inExtendedViewport s w e);
    reflexivity.
Qed.

Lemma nonContinuous_reaches (s : DwLazyList) (i : nat) :
  nonContinuous s = true -> (i < List.length (children s))%nat ->
  exists lv, lastVisible_at s i = Some lv.
Proof.
  intros Hn Hlen. apply entry_state_reach; [|assumption].
  intros j x st' _ _. now rewrite refresh_iteratee_nonContinuous.
Qed.

(** C3. In a non-continuous list [refresh] judges each child on its own:
    a child that is not active and not an initial item ends the run active
    exactly when its offset is below [viewportExtendedBottom] and above
    [viewportTop] or [viewportExtendedTop], and is otherwise left as it was;
    this holds for every child, whatever the run did to the children before
    it (the scan never stops early), and the outcome of the run does not
    depend on [prerenderItemsCount]. *)
Theorem nonContinuous_local (s : DwLazyList) :
  nonContinuous s = true ->
  (forall i e, nth_error (children s) i = Some e ->
     active e = false -> isInitialItem s i = false ->
     let w := refresh_window s in
     let offset := elStartPos s e in
     exists e', nth_error (children (refresh s)) i = Some e' /\
       offsetTop e' = offsetTop e /\ offsetLeft e' = offsetLeft e /\
       (active e' = true <->
        offset < viewportExtendedBottom w /\
        (offset > viewportTop w \/ offset > viewportExtendedTop w))) /\
  (forall n,
     children (refresh (set_prerenderItemsCount s n)) = children (refresh s)).
Proof.
  intros Hn. split.
  - intros i e He Ha Hi w offset.
    destruct (nonContinuous_reaches s i Hn) as [lv Hlv].
    { apply nth_error_Some. now rewrite He. }
    rewrite (refresh_nth s i e He), Hlv, refresh_iteratee_nonContinuous
      by assumption.
    rewrite Ha, Hi. simpl. fold w.
    eexists. split; [reflexivity|].
    assert (Htest : inExtendedViewport s w e = true <->
                    offset < viewportExtendedBottom w /\
                    (offset > viewportTop w \/ offset > viewportExtendedTop w)).
    { unfold inExtendedViewport, Qgt_bool. fold offset.
      now rewrite andb_true_iff, orb_true_iff, !Qlt_bool_iff. }
    destruct (inExtendedViewport s w e); simpl;
      (split; [reflexivity | split; [reflexivity|]]).
    + split; [intros _; now apply Htest | reflexivity].
    + split; [congruence | intros H; apply Htest in H; discriminate].
  - intros n. rewrite !refresh_children.
    unfold refresh_scan, forEach. f_equal.
    apply forEach_from_ext. intros st x i.
    rewrite !refresh_iteratee_nonContinuous by assumption. reflexivity.
Qed.

Lemma nonContinuous_local_witness :
  (exists e', nth_error (children (refresh scatteredRows)) 4 = Some e' /\
     offsetTop e' = 9000 /\ offsetLeft e' = 0 /\
     (active e' = true <->
      9000 < 5400 + 400 * (1 # 2) /\
      (9000 > 5000 - 400 \/ 9000 > 5000 - 400 - 400 * (1 # 2)))) /\
  nth_error (flags (refresh scatteredRows)) 4 = Some false /\
  nth_error (flags (refresh scatteredRows)) 5 = Some true.
Proof.
  split; [|split; reflexivity].
  destruct (nonContinuous_local scatteredRows eq_refl) as [H _].
  apply (H 4%nat (row 9000 false)); reflexivity.
Defined.

(** ** Continuous lists: where the scan stops *)

Lemma refresh_nth_total (s : DwLazyList) (i : nat) :
  nth_error (children (refresh s)) i
  = match lastVisible_at s i, nth_error (children s) i with
    | Some lv, Some e =>
        Some (snd (fst (refresh_iteratee s (refresh_window s) lv e i)))
    | _, r => r
    end.
Proof.
  rewrite refresh_children.
  unfold refresh_scan, forEach, _findLazyChildren.
  now rewrite forEach_from_nth.
Qed.

(** The continuous branch of the callback, for a child that is neither
    active nor an initial item. *)
Lemma refresh_iteratee_continuous (s : DwLazyList) (w : Window) (lv : nat)
  (e : LazyChild) (i : nat) :
  nonContinuous s = false -> active e = false -> isInitialItem s i = false ->
  refresh_iteratee s w lv e i
  = let lv' := updateLastVisible s w lv e i in
    if inPrerenderRange s w lv' e i then (lv', activate e, true)
    else (lv', e, false).
Proof.
  intros Hn Ha Hi. unfold refresh_iteratee. now rewrite Ha, Hi, Hn.
Qed.

(** C2, as the code has it.  In a continuous list, when the scan reaches a
    child that is not active, is not an initial item and fails both tests
    (its offset is not below [viewportExtendedBottom] and its index is not
    within [lastVisibleElementInViewport + prerenderItemsCount]), the run
    leaves that child as it was and stops there: every later child is left
    exactly as it was, whatever its offset. *)
Theorem continuous_stops_at_first_failure (s : DwLazyList) (i lv : nat)
  (e : LazyChild) :
  nonContinuous s = false ->
  lastVisible_at s i = Some lv ->
  nth_error (children s) i = Some e ->
  active e = false -> isInitialItem s i = false ->
  inPrerenderRange s (refresh_window s)
    (updateLastVisible s (refresh_window s) lv e i) e i = false ->
  forall j, (i <= j)%nat ->
    nth_error (children (refresh s)) j = nth_error (children s) j.
Proof.
  intros Hn Hlv He Ha Hi Hfail j Hj.
  pose proof (refresh_iteratee_continuous s (refresh_window s) lv e i
                Hn Ha Hi) as Hit.
  cbv zeta in Hit. rewrite Hfail in Hit.
  rewrite refresh_nth_total.
  destruct (Nat.eq_dec j i) as [->|Hne].
  - now rewrite Hlv, He, Hit.
  - unfold lastVisible_at in *.
    rewrite (entry_state_stop _ (children s) 0 0%nat lv i e Hlv He);
      [reflexivity | simpl; now rewrite Hit | lia].
Qed.

Lemma continuous_stops_at_first_failure_witness :
  nth_error (children (refresh unevenRows)) 2
  = nth_error (children unevenRows) 2.
Proof.
  apply (continuous_stops_at_first_failure unevenRows 1 0 (row 10000 false));
    (reflexivity || lia).
Defined.

(** C2, as stated, fails on [unevenRows]: the scan reaches row 1, which fails
    both tests; row 2 starts below [viewportExtendedBottom] (it is even
    inside the viewport) and is not an initial item, yet it is not active
    after the run. *)
Lemma continuous_scan_breaks :
  nonContinuous unevenRows = false /\
  lastVisible_at unevenRows 1 = Some 0%nat /\
  inPrerenderRange unevenRows (refresh_window unevenRows)
    (updateLastVisible unevenRows (refresh_window unevenRows) 0
       (row 10000 false) 1) (row 10000 false) 1 = false /\
  nth_error (children unevenRows) 2 = Some (row 300 false) /\
  isInitialItem unevenRows 2 = false /\
  Qlt_bool (elStartPos unevenRows (row 300 false))
    (viewportExtendedBottom (refresh_window unevenRows)) = true /\
  nth_error (flags (refresh unevenRows)) 2 = Some false.
Proof. repeat split. Qed.

(** ** Continuous lists: the activation test *)

Lemma index_le_plus_iff (i base : nat) (n : option Z) :
  index_le_plus i base n = true <->
  exists c, n = Some c /\ (Z.of_nat i <= Z.of_nat base + c)%Z.
Proof.
  unfold index_le_plus. destruct n as [c|].
  - rewrite Z.leb_le. split.
    + intros H. now exists c.
    + now intros (c' & [= <-] & H).
  - split; [discriminate | now intros (c & [=] & _)].
Qed.

Lemma inPrerenderRange_iff (s : DwLazyList) (w : Window) (lv : nat)
  (e : LazyChild) (i : nat) :
  inPrerenderRange s w lv e i = true <->
  elStartPos s e < viewportExtendedBottom w \/
  exists c, prerenderItemsCount s = Some c /\
            (Z.of_nat i <= Z.of_nat lv + c)%Z.
Proof.
  unfold inPrerenderRange.
  now rewrite orb_true_iff, Qlt_bool_iff, index_le_plus_iff.
Qed.

(** C4, as the code has it.  In a continuous list, a child that the scan
    reaches, that is not active and not an initial item, ends the run active
    exactly when its offset is below [viewportExtendedBottom] or its index is
    at most [lastVisibleElementInViewport + prerenderItemsCount] (the
    bookkeeping value after the callback's own assignment for this child; the
    index test is false when [prerenderItemsCount] is undefined).  With
    [prerenderItemsCount = 3] and the bookkeeping value 10, such a child at
    or below [viewportExtendedBottom] becomes active at index 13 and does
    not at index 14. *)
Theorem continuous_activation (s : DwLazyList) (i lv : nat) (e : LazyChild) :
  nonContinuous s = false ->
  lastVisible_at s i = Some lv ->
  nth_error (children s) i = Some e ->
  active e = false -> isInitialItem s i = false ->
  let w := refresh_window s in
  let offset := elStartPos s e in
  let lastVisibleIndex := updateLastVisible s w lv e i in
  exists e', nth_error (children (refresh s)) i = Some e' /\
    offsetTop e' = offsetTop e /\ offsetLeft e' = offsetLeft e /\
    (active e' = true <->
     offset < viewportExtendedBottom w \/
     exists c, prerenderItemsCount s = Some c /\
               (Z.of_nat i <= Z.of_nat lastVisibleIndex + c)%Z) /\
    (prerenderItemsCount s = Some 3%Z -> lastVisibleIndex = 10%nat ->
     viewportExtendedBottom w <= offset ->
     (i = 13%nat -> active e' = true) /\ (i = 14%nat -> active e' = false)).
Proof.
  intros Hn Hlv He Ha Hi w offset lvi.
  rewrite (refresh_nth s i e He), Hlv.
  rewrite (refresh_iteratee_continuous s (refresh_window s) lv e i Hn Ha Hi).
  cbv zeta. fold w. fold lvi.
  pose proof (inPrerenderRange_iff s w lvi e i) as Htest. fold offset in Htest.
  assert (Hact : active (snd (fst (if inPrerenderRange s w lvi e i
                                   then (lvi, activate e, true)
                                   else (lvi, e, false)))) = true <->
                 inPrerenderRange s w lvi e i = true).
  { destruct (inPrerenderRange s w lvi e i); simpl; [tauto|].
    rewrite Ha. tauto. }
  eexists. split; [reflexivity|].
  split; [now destruct (inPrerenderRange s w lvi e i)|].
  split; [now destruct (inPrerenderRange s w lvi e i)|].
  split; [now rewrite Hact|].
  intros Hc Hten Hfar. split; intros ->.
  - apply Hact, Htest. right. exists 3%Z. split; [assumption | lia].
  - apply not_true_iff_false. rewrite Hact, Htest.
    intros [Hlt|(c & Hc' & Hle)].
    + apply (Qlt_not_le _ _ Hlt Hfar).
    + rewrite Hc in Hc'. injection Hc' as <-. lia.
Qed.

Lemma continuous_activation_witness :
  (exists e', nth_error (children (refresh trailingRows)) 13 = Some e' /\
              active e' = true) /\
  (exists e', nth_error (children (refresh trailingRows)) 14 = Some e' /\
              active e' = false).
Proof.
  split.
  - destruct (continuous_activation trailingRows 13 10 (row 5000 false))
      as (e' & He' & _ & _ & _ & H); try reflexivity.
    exists e'. split; [exact He'|].
    apply H; [reflexivity | reflexivity | discriminate | reflexivity].
  - destruct (continuous_activation trailingRows 14 10 (row 5000 false))
      as (e' & He' & _ & _ & _ & H); try reflexivity.
    exists e'. split; [exact He'|].
    apply H; [reflexivity | reflexivity | discriminate | reflexivity].
Defined.

(** C4, as stated, fails on [trailingRows]: row 15 is not active, is not an
    initial item and starts below [viewportExtendedBottom], yet it is not
    active after the run, because the scan has stopped at row 14. *)
Lemma continuous_activation_unreached :
  nonContinuous trailingRows = false /\
  nth_error (children trailingRows) 15 = Some (row 350 false) /\
  isInitialItem trailingRows 15 = false /\
  Qlt_bool (elStartPos trailingRows (row 350 false))
    (viewportExtendedBottom (refresh_window trailingRows)) = true /\
  lastVisible_at trailingRows 15 = None /\
  nth_error (flags (refresh trailingRows)) 15 = Some false.
Proof. repeat split. Qed.

(** ** Continuous lists: the bookkeeping *)

(** One turn of the loop: the bookkeeping value changes exactly at a child
    that [bookkeeps]. *)
Lemma lastVisible_at_succ (s : DwLazyList) (i lv' : nat) :
  lastVisible_at s (S i) = Some lv' ->
  exists lv, lastVisible_at s i = Some lv /\
             lv' = if bookkeeps s i then i else lv.
Proof.
  unfold lastVisible_at, bookkeeps. rewrite entry_state_succ.
  destruct (entry_state _ 0 0%nat (children s) i) as [lv|]; [|discriminate].
  destruct (nth_error (children s) i) as [e|]; [|discriminate].
  destruct (nth_error (children s) (S i)); [|discriminate].
  simpl. unfold refresh_iteratee, updateLastVisible.
  destruct (active e); simpl; [intros [= <-]; now exists lv|].
  destruct (isInitialItem s i); simpl; [intros [= <-]; now exists lv|].
  destruct (nonContinuous s); simpl.
  - destruct (inExtendedViewport _ _ _); intros [= <-]; now exists lv.
  - destruct (inPrerenderRange _ _ _ _ _); [|discriminate].
    intros [= <-]. exists lv. split; [reflexivity|].
    now destruct (Qlt_bool _ _).
Qed.

(** C5, as the code has it.  When the scan reaches child [i],
    [lastVisibleElementInViewport] is the highest index below [i] of a child
    at which the bookkeeping assignment ran, and 0 if there is none; the
    assignment runs only at a child of a continuous list that was not
    already active, is not an initial item and starts before
    [viewportBottom].  A child that was already active is skipped before the
    assignment and contributes nothing. *)
Theorem lastVisible_bookkeeping (s : DwLazyList) (i lv : nat) :
  lastVisible_at s i = Some lv ->
  (lv = 0%nat \/ (lv < i)%nat /\ bookkeeps s lv = true) /\
  (forall j, (lv < j < i)%nat -> bookkeeps s j = false) /\
  (forall j e, nth_error (children s) j = Some e -> bookkeeps s j = true ->
     active e = false /\ isInitialItem s j = false /\
     nonContinuous s = false /\
     elStartPos s e < viewportBottom (refresh_window s)).
Proof.
  intros Hlv. split; [|split].
  - revert lv Hlv. induction i as [|i IH]; intros lv Hlv.
    + unfold lastVisible_at in Hlv. destruct (children s); [discriminate|].
      injection Hlv as <-. now left.
    + apply lastVisible_at_succ in Hlv as (lv0 & Hlv0 & ->).
      destruct (bookkeeps s i) eqn:Hb.
      * right. split; [lia | assumption].
      * destruct (IH lv0 Hlv0) as [->|[Hlt Hb0]]; [now left | right].
        split; [lia | assumption].
  - revert lv Hlv. induction i as [|i IH]; intros lv Hlv j Hj; [lia|].
    apply lastVisible_at_succ in Hlv as (lv0 & Hlv0 & ->).
    destruct (bookkeeps s i) eqn:Hb; [lia|].
    destruct (Nat.eq_dec j i) as [->|Hne]; [assumption|].
    apply (IH lv0 Hlv0). lia.
  - intros j e He. unfold bookkeeps. rewrite He.
    rewrite !andb_true_iff, !negb_true_iff, Qlt_bool_iff. tauto.
Qed.

Lemma lastVisible_bookkeeping_witness :
  (10 < 13)%nat /\ bookkeeps trailingRows 10 = true /\
  bookkeeps trailingRows 12 = false.
Proof.
  destruct (lastVisible_bookkeeping trailingRows 13 10 eq_refl)
    as ([H|[Hlt Hb]] & Hnone & _).
  - discriminate H.
  - split; [exact Hlt | split; [exact Hb|]]. apply Hnone. lia.
Defined.

(** C5, as stated, fails on [scrolledRows]: row 10 is already active and
    starts before [viewportBottom], yet when the scan has passed it and
    reaches row 11 the bookkeeping value is still 0, so row 11, within three
    rows of row 10, is not activated. *)
Lemma active_rows_do_not_bookkeep :
  nonContinuous scrolledRows = false /\
  prerenderItemsCount scrolledRows = Some 3%Z /\
  nth_error (children scrolledRows) 10 = Some (row 300 true) /\
  Qlt_bool (elStartPos scrolledRows (row 300 true))
    (viewportBottom (refresh_window scrolledRows)) = true /\
  lastVisible_at scrolledRows 11 = Some 0%nat /\
  nth_error (flags (refresh scrolledRows)) 11 = Some false.
Proof. repeat split. Qed.

(** ** Running twice *)

Lemma forEach_from_cons {St A : Type} (f : St -> A -> nat -> St * A * bool)
  (index : nat) (st : St) (x : A) (l : list A) :
  snd (forEach_from f index st (x :: l))
  = snd (fst (f st x index))
    :: (if snd (f st x index)
        then snd (forEach_from f (S index) (fst (fst (f st x index))) l)
        else l).
Proof.
  simpl. destruct (f st x index) as [[st' x'] [|]]; simpl; [|reflexivity].
  now destruct (forEach_from f (S index) st' l).
Qed.

Lemma updateLastVisible_le (s : DwLazyList) (w : Window) (lv lv2 : nat)
  (e : LazyChild) (i : nat) :
  (lv2 <= lv)%nat -> (lv2 <= i)%nat ->
  (updateLastVisible s w lv2 e i <= updateLastVisible s w lv e i)%nat /\
  (lv2 <= updateLastVisible s w lv e i)%nat.
Proof.
  intros H1 H2. unfold updateLastVisible.
  destruct (Qlt_bool _ _); lia.
Qed.

(** A smaller bookkeeping value cannot make the test pass. *)
Lemma inPrerenderRange_mono (s : DwLazyList) (w : Window) (lv lv2 : nat)
  (e : LazyChild) (i : nat) :
  (lv2 <= lv)%nat ->
  inPrerenderRange s w lv e i = false -> inPrerenderRange s w lv2 e i = false.
Proof.
  intros Hle. rewrite <- !not_true_iff_false, !inPrerenderRange_iff.
  intros Hno [H|(c & Hc & H)]; apply Hno; [now left | right].
  exists c. split; [assumption | lia].
Qed.

(** Scanning the outcome of a scan again, from a bookkeeping value that is
    no larger, changes nothing. *)
Lemma refresh_scan_idem (s : DwLazyList) (w : Window) (l : list LazyChild) :
  forall index lv lv2, (lv2 <= lv)%nat -> (lv2 <= index)%nat ->
    snd (forEach_from (refresh_iteratee s w) index lv2
           (snd (forEach_from (refresh_iteratee s w) index lv l)))
    = snd (forEach_from (refresh_iteratee s w) index lv l).
Proof.
  induction l as [|x l IH]; intros index lv lv2 H1 H2; [reflexivity|].
  rewrite (forEach_from_cons _ index lv x l).
  destruct (active x) eqn:Ha.
  { rewrite refresh_iteratee_active by assumption. cbn [fst snd orb].
    rewrite forEach_from_cons, refresh_iteratee_active by assumption. cbn [fst snd orb].
    f_equal. apply IH; lia. }
  destruct (isInitialItem s index) eqn:Hi.
  { rewrite refresh_iteratee_initial by assumption. rewrite Ha. cbn [fst snd orb].
    rewrite forEach_from_cons, refresh_iteratee_active by reflexivity. cbn [fst snd orb].
    f_equal. apply IH; lia. }
  destruct (nonContinuous s) eqn:Hn.
  - rewrite refresh_iteratee_nonContinuous by assumption.
    rewrite Ha, Hi. cbn [fst snd orb].
    destruct (inExtendedViewport s w x) eqn:Ht; rewrite forEach_from_cons.
    + rewrite refresh_iteratee_active by reflexivity. cbn [fst snd orb].
      f_equal. apply IH; lia.
    + rewrite refresh_iteratee_nonContinuous by assumption.
      rewrite Ha, Hi, Ht. simpl. f_equal. apply IH; lia.
  - rewrite refresh_iteratee_continuous by assumption. cbv zeta.
    destruct (updateLastVisible_le s w lv lv2 x index H1 H2) as [Hle Hle2].
    destruct (inPrerenderRange s w (updateLastVisible s w lv x index) x index)
      eqn:Ht; cbn [fst snd orb]; rewrite forEach_from_cons.
    + rewrite refresh_iteratee_active by reflexivity. cbn [fst snd orb].
      f_equal. apply IH; lia.
    + rewrite refresh_iteratee_continuous by assumption. cbv zeta.
      now rewrite (inPrerenderRange_mono s w _ _ x index Hle Ht).
Qed.

Lemma initialItemRefresh_scan_idem (s : DwLazyList) (l : list LazyChild) :
  forall index,
    snd (forEach_from (initialItemRefresh_iteratee s) index tt
           (snd (forEach_from (initialItemRefresh_iteratee s) index tt l)))
    = snd (forEach_from (initialItemRefresh_iteratee s) index tt l).
Proof.
  induction l as [|x l IH]; intros index; [reflexivity|].
  rewrite (forEach_from_cons _ index tt x l).
  destruct (active x) eqn:Ha.
  { rewrite initialItemRefresh_iteratee_active by assumption. cbn [fst snd orb].
    rewrite forEach_from_cons, initialItemRefresh_iteratee_active
      by assumption.
    cbn [fst snd orb]. f_equal. apply IH. }
  destruct (isInitialItem s index) eqn:Hi.
  - rewrite initialItemRefresh_iteratee_initial by assumption.
    rewrite Ha. cbn [fst snd orb].
    rewrite forEach_from_cons, initialItemRefresh_iteratee_active
      by reflexivity.
    cbn [fst snd orb]. f_equal. apply IH.
  - unfold initialItemRefresh_iteratee at 2 3 4. rewrite Ha, Hi. cbn [fst snd orb].
    rewrite forEach_from_cons. unfold initialItemRefresh_iteratee.
    now rewrite Ha, Hi.
Qed.

Lemma refresh_eq (s : DwLazyList) :
  refresh s
  = set_children
      (_refreshScrollProps s (_findViewportLength s) (_findScorllLength s))
      (snd (refresh_scan s (refresh_window s))).
Proof.
  unfold refresh.
  change (refresh_scan
            (_refreshScrollProps s (_findViewportLength s)
               (_findScorllLength s))
            (window
               (_refreshScrollProps s (_findViewportLength s)
                  (_findScorllLength s))
               (_findViewportLength s) (_findScorllLength s)))
    with (refresh_scan s (refresh_window s)).
  now destruct (refresh_scan s (refresh_window s)).
Qed.

Lemma initialItemRefresh_eq (s : DwLazyList) :
  initialItemRefresh s
  = set_children
      (_refreshScrollProps s (_findViewportLength s) (_findScorllLength s))
      (snd (forEach (children s) tt (initialItemRefresh_iteratee s))).
Proof.
  unfold initialItemRefresh.
  change (forEach
            (_findLazyChildren
               (_refreshScrollProps s (_findViewportLength s)
                  (_findScorllLength s))) tt
            (initialItemRefresh_iteratee
               (_refreshScrollProps s (_findViewportLength s)
                  (_findScorllLength s))))
    with (forEach (children s) tt (initialItemRefresh_iteratee s)).
  now destruct (forEach (children s) tt (initialItemRefresh_iteratee s)).
Qed.

(** C8. A run is idempotent: running the same entry point a second time on
    the state the first run left, with the viewport, the geometry and the
    configuration unchanged, yields exactly the same list: the same active
    children and the same boundary flags. *)
Theorem engine_run_idempotent (r : Run) (s : DwLazyList) :
  engine_run r (engine_run r s) = engine_run r s.
Proof.
  destruct r; simpl.
  - rewrite (refresh_eq s). rewrite refresh_eq.
    set (cs := snd (refresh_scan s (refresh_window s))).
    change (set_children
              (_refreshScrollProps s (_findViewportLength s)
                 (_findScorllLength s))
              (snd (forEach_from (refresh_iteratee s (refresh_window s))
                      0 0%nat cs))
            = set_children
                (_refreshScrollProps s (_findViewportLength s)
                   (_findScorllLength s)) cs).
    f_equal. apply refresh_scan_idem; lia.
  - rewrite (initialItemRefresh_eq s). rewrite initialItemRefresh_eq.
    set (cs := snd (forEach (children s) tt (initialItemRefresh_iteratee s))).
    change (set_children
              (_refreshScrollProps s (_findViewportLength s)
                 (_findScorllLength s))
              (snd (forEach_from (initialItemRefresh_iteratee s) 0 tt cs))
            = set_children
                (_refreshScrollProps s (_findViewportLength s)
                   (_findScorllLength s)) cs).
    f_equal. apply initialItemRefresh_scan_idem.
Qed.

(** ** A viewport of zero extent *)

Lemma Qlt_bool_comp (x x' y y' : Q) :
  x == x' -> y == y' -> Qlt_bool x y = Qlt_bool x' y'.
Proof.
  intros Hx Hy. unfold Qlt_bool. f_equal. now rewrite Hx, Hy.
Qed.

(** With no extent, all four window edges coincide with the scroll offset. *)
Lemma window_zero_extent (s : DwLazyList) :
  _findViewportLength s == 0 ->
  let w := refresh_window s in
  viewportBottom w == _findScorllLength s /\
  viewportTop w == _findScorllLength s /\
  viewportExtendedBottom w == _findScorllLength s /\
  viewportExtendedTop w == _findScorllLength s.
Proof.
  intros Hv. unfold refresh_window, window. simpl.
  rewrite Hv. repeat split; ring.
Qed.

(** C9, as the code has it.  On a viewport of zero extent all four window
    edges of [refresh] equal the scroll offset and [hasScroll] is
    [contentExtent > 0].  A child that is not active and not an initial item
    is left as it was in a non-continuous list; in a continuous list it is
    left as it was when the scan does not reach it, and when the scan
    reaches it it becomes active exactly when it starts before the scroll
    offset or its index is at most [lastVisibleElementInViewport +
    prerenderItemsCount] (the bookkeeping value with which the scan reaches
    it). *)
Theorem zero_extent_viewport (s : DwLazyList) :
  _findViewportLength s == 0 ->
  let w := refresh_window s in
  let scrollOffset := _findScorllLength s in
  (viewportBottom w == scrollOffset /\ viewportTop w == scrollOffset /\
   viewportExtendedBottom w == scrollOffset /\
   viewportExtendedTop w == scrollOffset) /\
  _hasScroll (refresh s) = Qgt_bool (_findContentLength s) 0 /\
  (forall i e, nth_error (children s) i = Some e ->
     active e = false -> isInitialItem s i = false ->
     if nonContinuous s then nth_error (children (refresh s)) i = Some e
     else
       match lastVisible_at s i with
       | Some lv =>
           nth_error (flags (refresh s)) i = Some true <->
           elStartPos s e < scrollOffset \/
           exists c, prerenderItemsCount s = Some c /\
                     (Z.of_nat i <= Z.of_nat lv + c)%Z
       | None => nth_error (children (refresh s)) i = Some e
       end).
Proof.
  intros Hv w scrollOffset.
  pose proof (window_zero_extent s Hv) as Hw. cbv zeta in Hw. fold w in Hw.
  fold scrollOffset in Hw. destruct Hw as (Hvb & Hvt & Hveb & Hvet).
  split; [repeat split; assumption | split].
  - destruct (engine_run_scrollProps Refresh s) as [Hh _]. simpl in Hh.
    rewrite Hh. unfold Qgt_bool. apply Qlt_bool_comp; [assumption|reflexivity].
  - intros i e He Ha Hi. destruct (nonContinuous s) eqn:Hn.
    + destruct (nonContinuous_reaches s i Hn) as [lv Hlv].
      { apply nth_error_Some. now rewrite He. }
      rewrite (refresh_nth s i e He), Hlv, refresh_iteratee_nonContinuous
        by assumption.
      rewrite Ha, Hi. fold w. cbn [fst snd orb].
      destruct (inExtendedViewport s w e) eqn:Htest; [exfalso|reflexivity].
      unfold inExtendedViewport, Qgt_bool in Htest.
      rewrite andb_true_iff, orb_true_iff, !Qlt_bool_iff in Htest.
      rewrite Hveb, Hvt, Hvet in Htest.
      destruct Htest as [Hlt [Hgt|Hgt]]; apply (Qlt_irrefl (elStartPos s e));
        now apply Qlt_trans with (y := scrollOffset).
    + destruct (lastVisible_at s i) as [lv|] eqn:Hlv;
        [|now rewrite (refresh_nth s i e He), Hlv].
      rewrite flags_nth, (refresh_nth s i e He), Hlv.
      rewrite (refresh_iteratee_continuous s (refresh_window s) lv e i
                 Hn Ha Hi).
      cbv zeta. fold w.
      assert (Htest : inPrerenderRange s w (updateLastVisible s w lv e i) e i
                      = true <->
                      elStartPos s e < scrollOffset \/
                      exists c, prerenderItemsCount s = Some c /\
                                (Z.of_nat i <= Z.of_nat lv + c)%Z).
      { rewrite inPrerenderRange_iff, Hveb. unfold updateLastVisible.
        destruct (Qlt_bool_spec (elStartPos s e) (viewportBottom w))
          as [Hlt|Hge]; [|reflexivity].
        rewrite Hvb in Hlt. split; intros _; now left. }
      rewrite <- Htest.
      destruct (inPrerenderRange s w (updateLastVisible s w lv e i) e i);
        cbn [fst snd]; split.
      * reflexivity.
      * intros _. eexists. split; reflexivity.
      * intros (e' & [= <-] & He'). congruence.
      * discriminate.
Qed.

Lemma zero_extent_viewport_witness :
  _hasScroll (refresh zeroViewportRows) = true /\
  (nth_error (flags (refresh collapsedRows)) 2 = Some true <->
   elStartPos collapsedRows (row 5000 false)
   < _findScorllLength collapsedRows \/
   exists c, prerenderItemsCount collapsedRows = Some c /\
             (Z.of_nat 2 <= Z.of_nat 1 + c)%Z) /\
  nth_error (children (refresh collapsedUnevenRows)) 2 = Some (row 50 false).
Proof.
  split; [|split].
  - destruct (zero_extent_viewport zeroViewportRows ltac:(reflexivity))
      as (_ & H & _).
    rewrite H. reflexivity.
  - destruct (zero_extent_viewport collapsedRows ltac:(reflexivity))
      as (_ & _ & H).
    apply (H 2%nat (row 5000 false)); reflexivity.
  - destruct (zero_extent_viewport collapsedUnevenRows ltac:(reflexivity))
      as (_ & _ & H).
    apply (H 2%nat (row 50 false)); reflexivity.
Defined.

(** C9, as stated, fails on [collapsedRows]: the viewport has zero extent,
    yet [hasScroll] is true after the run, and rows 1 and 2, which are not
    initial items, have become active (row 1 starts before the scroll offset,
    row 2 lies within [prerenderItemsCount] of it). *)
Lemma zero_extent_still_activates :
  Qeq_bool (_findViewportLength collapsedRows) 0 = true /\
  _hasScroll (refresh collapsedRows) = true /\
  flags collapsedRows = [false; false; false; false] /\
  isInitialItem collapsedRows 1 = false /\
  isInitialItem collapsedRows 2 = false /\
  flags (refresh collapsedRows) = [true; true; true; false].
Proof. repeat split. Qed.

(** ** The two runs together *)

(** Scanning with [refresh]'s callback what [initialItemRefresh]'s scan left
    gives what scanning the original children gives. *)
Lemma refresh_after_initial_scan (s : DwLazyList) (w : Window)
  (l : list LazyChild) :
  forall index lv,
    snd (forEach_from (refresh_iteratee s w) index lv
           (snd (forEach_from (initialItemRefresh_iteratee s) index tt l)))
    = snd (forEach_from (refresh_iteratee s w) index lv l).
Proof.
  induction l as [|x l IH]; intros index lv; [reflexivity|].
  rewrite (forEach_from_cons (initialItemRefresh_iteratee s) index tt x l).
  destruct (active x) eqn:Ha.
  { rewrite initialItemRefresh_iteratee_active by assumption.
    cbn [fst snd]. rewrite !forEach_from_cons.
    rewrite refresh_iteratee_active by assumption. cbn [fst snd].
    f_equal. apply IH. }
  destruct (isInitialItem s index) eqn:Hi.
  - rewrite initialItemRefresh_iteratee_initial by assumption.
    rewrite Ha. cbn [fst snd]. rewrite !forEach_from_cons.
    rewrite refresh_iteratee_active by reflexivity.
    rewrite refresh_iteratee_initial by assumption.
    rewrite Ha. cbn [fst snd]. f_equal. apply IH.
  - unfold initialItemRefresh_iteratee. rewrite Ha, Hi. reflexivity.
Qed.

(** Scanning with [initialItemRefresh]'s callback what [refresh]'s scan left
    changes nothing. *)
Lemma initial_after_refresh_scan (s : DwLazyList) (w : Window)
  (l : list LazyChild) :
  forall index lv,
    snd (forEach_from (initialItemRefresh_iteratee s) index tt
           (snd (forEach_from (refresh_iteratee s w) index lv l)))
    = snd (forEach_from (refresh_iteratee s w) index lv l).
Proof.
  induction l as [|x l IH]; intros index lv; [reflexivity|].
  rewrite (forEach_from_cons (refresh_iteratee s w) index lv x l).
  destruct (active x) eqn:Ha.
  { rewrite refresh_iteratee_active by assumption. cbn [fst snd].
    rewrite forEach_from_cons.
    rewrite initialItemRefresh_iteratee_active by assumption.
    cbn [fst snd]. f_equal. apply IH. }
  destruct (isInitialItem s index) eqn:Hi.
  { rewrite refresh_iteratee_initial by assumption. rewrite Ha.
    cbn [fst snd]. rewrite forEach_from_cons.
    rewrite initialItemRefresh_iteratee_active by reflexivity.
    cbn [fst snd]. f_equal. apply IH. }
  assert (Hstay : forall rest,
             snd (forEach_from (initialItemRefresh_iteratee s) index tt
                    (x :: rest)) = x :: rest).
  { intros rest. rewrite forEach_from_cons.
    unfold initialItemRefresh_iteratee. now rewrite Ha, Hi. }
  destruct (nonContinuous s) eqn:Hn.
  - rewrite refresh_iteratee_nonContinuous by assumption.
    rewrite Ha, Hi. cbn [fst snd orb].
    destruct (inExtendedViewport s w x); [|apply Hstay].
    rewrite forEach_from_cons.
    rewrite initialItemRefresh_iteratee_active by reflexivity.
    cbn [fst snd]. f_equal. apply IH.
  - rewrite refresh_iteratee_continuous by assumption. cbv zeta.
    destruct (inPrerenderRange s w _ x index); cbn [fst snd]; [|apply Hstay].
    rewrite forEach_from_cons.
    rewrite initialItemRefresh_iteratee_active by reflexivity.
    cbn [fst snd]. f_equal. apply IH.
Qed.

(** X1. [refresh] absorbs [initialItemRefresh]: running [refresh] after
    [initialItemRefresh], or [initialItemRefresh] after [refresh], on
    unchanged geometry leaves the list exactly as one [refresh] does. *)
Theorem refresh_absorbs_initialItemRefresh (s : DwLazyList) :
  refresh (initialItemRefresh s) = refresh s /\
  initialItemRefresh (refresh s) = refresh s.
Proof.
  split.
  - rewrite (initialItemRefresh_eq s), !refresh_eq.
    set (cs := snd (forEach (children s) tt (initialItemRefresh_iteratee s))).
    change (set_children
              (_refreshScrollProps s (_findViewportLength s)
                 (_findScorllLength s))
              (snd (forEach_from (refresh_iteratee s (refresh_window s))
                      0 0%nat cs))
            = set_children
                (_refreshScrollProps s (_findViewportLength s)
                   (_findScorllLength s))
                (snd (forEach_from (refresh_iteratee s (refresh_window s))
                        0 0%nat (children s)))).
    f_equal. apply refresh_after_initial_scan.
  - rewrite (refresh_eq s), initialItemRefresh_eq.
    set (cs := snd (refresh_scan s (refresh_window s))).
    change (set_children
              (_refreshScrollProps s (_findViewportLength s)
                 (_findScorllLength s))
              (snd (forEach_from (initialItemRefresh_iteratee s) 0 tt cs))
            = set_children
                (_refreshScrollProps s (_findViewportLength s)
                   (_findScorllLength s)) cs).
    f_equal. apply initial_after_refresh_scan.
Qed.

(** ** Continuous lists keep a leading block *)

Lemma all_inactive_isLeadingBlock (l : list bool) :
  forallb negb l = true -> isLeadingBlock l = true.
Proof.
  destruct l as [|[|] l]; simpl; [reflexivity | discriminate | trivial].
Qed.

Lemma leadingBlock_scan {St : Type}
  (f : St -> LazyChild -> nat -> St * LazyChild * bool)
  (Hskip : forall st e i, active e = true -> f st e i = (st, e, true))
  (Hrest : forall st e i, active e = false ->
             exists st', f st e i = (st', activate e, true)
                         \/ f st e i = (st', e, false))
  (l : list LazyChild) :
  forall index st,
    isLeadingBlock (map active l) = true ->
    isLeadingBlock (map active (snd (forEach_from f index st l))) = true.
Proof.
  induction l as [|x l IH]; intros index st Hl; [reflexivity|].
  rewrite forEach_from_cons. simpl in Hl.
  destruct (active x) eqn:Ha.
  - rewrite Hskip by assumption. cbn [fst snd map]. rewrite Ha.
    now apply IH.
  - destruct (Hrest st x index Ha) as [st' [H|H]]; rewrite H;
      cbn [fst snd map].
    + simpl. apply IH. now apply all_inactive_isLeadingBlock.
    + rewrite Ha. exact Hl.
Qed.

(** X2. Continuity: if the active children form a leading block (no active
    child after an inactive one), they still do after [initialItemRefresh],
    and after [refresh] on a continuous list. *)
Theorem leadingBlock_kept (r : Run) (s : DwLazyList) :
  (r = Refresh -> nonContinuous s = false) ->
  isLeadingBlock (flags s) = true ->
  isLeadingBlock (flags (engine_run r s)) = true.
Proof.
  intros Hmode Hl. unfold flags. destruct r; simpl.
  - specialize (Hmode eq_refl). rewrite refresh_children.
    unfold refresh_scan, forEach, _findLazyChildren.
    apply leadingBlock_scan; [| |exact Hl].
    + intros st e i Ha. now apply refresh_iteratee_active.
    + intros st e i Ha. unfold refresh_iteratee. rewrite Ha, Hmode.
      destruct (isInitialItem s i); [eexists; left; reflexivity|].
      destruct (inPrerenderRange _ _ _ _ _); eexists; [left|right];
        reflexivity.
  - rewrite initialItemRefresh_children. unfold forEach.
    apply leadingBlock_scan; [| |exact Hl].
    + intros st e i Ha. now apply initialItemRefresh_iteratee_active.
    + intros st e i Ha. unfold initialItemRefresh_iteratee. rewrite Ha.
      destruct (isInitialItem s i); eexists; [left|right]; reflexivity.
Qed.

Lemma leadingBlock_kept_witness :
  isLeadingBlock (flags (refresh trailingRows)) = true /\
  isLeadingBlock (flags (refresh scatteredRows)) = false.
Proof.
  split; [|reflexivity].
  apply (leadingBlock_kept Refresh trailingRows); reflexivity.
Defined.

(** ** Continuous lists: what a run covers and what it leaves alone *)

(** On a child that is active, initial, or starts before
    [viewportExtendedBottom], the callback of a continuous list returns
    [true] and leaves the child active. *)
Lemma refresh_iteratee_passes (s : DwLazyList) (w : Window) (lv : nat)
  (e : LazyChild) (i : nat) :
  nonContinuous s = false ->
  active e = true \/ isInitialItem s i = true \/
  elStartPos s e < viewportExtendedBottom w ->
  snd (refresh_iteratee s w lv e i) = true /\
  active (snd (fst (refresh_iteratee s w lv e i))) = true.
Proof.
  intros Hn H. unfold refresh_iteratee.
  destruct (active e) eqn:Ha; [now split|].
  destruct (isInitialItem s i) eqn:Hi; [now split|].
  rewrite Hn. destruct H as [H|[H|H]]; try discriminate.
  unfold inPrerenderRange. apply Qlt_bool_iff in H. rewrite H. now split.
Qed.

(** The scan of a continuous list reaches child [j] when every child before
    it is active, initial, or starts before [viewportExtendedBottom]. *)
Lemma refresh_reaches_covered (s : DwLazyList) (j : nat) :
  nonContinuous s = false ->
  (j < List.length (children s))%nat ->
  (forall k x, (k < j)%nat -> nth_error (children s) k = Some x ->
     active x = true \/ isInitialItem s k = true \/
     elStartPos s x < viewportExtendedBottom (refresh_window s)) ->
  exists lv, lastVisible_at s j = Some lv.
Proof.
  intros Hn Hlen Hcov. apply entry_state_reach; [|assumption].
  intros k x st' Hk Hx. simpl.
  apply refresh_iteratee_passes; [assumption|]. now apply (Hcov k x).
Qed.

(** X3. In a continuous list, if every child up to index [i] is already
    active, is an initial item, or starts before [viewportExtendedBottom]
    (as when the children are laid out in order and child [i] starts before
    it), then after [refresh] every child up to [i] is active. *)
Theorem continuous_covers_prefix (s : DwLazyList) (i : nat) :
  nonContinuous s = false ->
  (i < List.length (children s))%nat ->
  (forall j e, (j <= i)%nat -> nth_error (children s) j = Some e ->
     active e = true \/ isInitialItem s j = true \/
     elStartPos s e < viewportExtendedBottom (refresh_window s)) ->
  forall j, (j <= i)%nat -> nth_error (flags (refresh s)) j = Some true.
Proof.
  intros Hn Hlen Hcov j Hj.
  assert (Hjlen : (j < List.length (children s))%nat) by lia.
  destruct (nth_error (children s) j) as [e|] eqn:He;
    [|apply nth_error_None in He; lia].
  destruct (refresh_reaches_covered s j Hn Hjlen) as [lv Hlv].
  { intros k x Hk Hx. apply (Hcov k x); [lia | assumption]. }
  apply flags_nth. rewrite (refresh_nth s j e He), Hlv.
  eexists. split; [reflexivity|].
  apply refresh_iteratee_passes; [assumption|]. now apply (Hcov j e).
Qed.

Lemma continuous_covers_prefix_witness :
  nth_error (flags (refresh stackedRows)) 3 = Some true /\
  nth_error (flags (refresh stackedRows)) 4 = Some true.
Proof.
  assert (H : forall j, (j <= 4)%nat ->
                        nth_error (flags (refresh stackedRows)) j = Some true).
  { apply (continuous_covers_prefix stackedRows 4);
      [reflexivity | simpl; lia |].
    intros j e Hj He. right. right.
    destruct j as [|[|[|[|[|j]]]]]; try lia;
      injection He as <-; reflexivity. }
  split; apply H; lia.
Defined.

Lemma lastVisible_at_origin (s : DwLazyList) (i lv : nat) :
  lastVisible_at s i = Some lv ->
  lv = 0%nat \/ (lv < i)%nat /\ bookkeeps s lv = true.
Proof.
  revert lv. induction i as [|i IH]; intros lv Hlv.
  - unfold lastVisible_at in Hlv. destruct (children s); [discriminate|].
    injection Hlv as <-. now left.
  - apply lastVisible_at_succ in Hlv as (lv0 & Hlv0 & ->).
    destruct (bookkeeps s i) eqn:Hb; [right; split; [lia | assumption]|].
    destruct (IH lv0 Hlv0) as [->|[Hlt Hb0]]; [now left | right].
    split; [lia | assumption].
Qed.

(** X4. Laziness: a child that is not an initial item and starts at or
    beyond [viewportExtendedBottom] is turned active by [refresh] only in a
    continuous list with [prerenderItemsCount] set to some [c], and only if
    its index is at most [c] past index 0 or past a child that was inactive,
    not an initial item and starting before [viewportBottom].  With
    [prerenderItemsCount] not set, or in a non-continuous list, it is never
    turned active. *)
Theorem far_child_activation (s : DwLazyList) (i : nat) (e : LazyChild) :
  nth_error (children s) i = Some e ->
  active e = false -> isInitialItem s i = false ->
  viewportExtendedBottom (refresh_window s) <= elStartPos s e ->
  nth_error (flags (refresh s)) i = Some true ->
  nonContinuous s = false /\
  exists c j, prerenderItemsCount s = Some c /\
    (j <= i)%nat /\ (Z.of_nat i <= Z.of_nat j + c)%Z /\
    (j = 0%nat \/ bookkeeps s j = true).
Proof.
  intros He Ha Hi Hfar Hflag.
  destruct (refresh_newly_active s i e He Ha Hflag)
    as (lv & Hlv & [H|[_ Htest]]); [congruence|].
  destruct (nonContinuous s) eqn:Hn.
  - exfalso. unfold inExtendedViewport in Htest.
    apply andb_true_iff in Htest as [Hlt _]. apply Qlt_bool_iff in Hlt.
    apply (Qlt_not_le _ _ Hlt Hfar).
  - split; [reflexivity|].
    apply inPrerenderRange_iff in Htest as [Hlt|(c & Hc & Hle)];
      [exfalso; apply (Qlt_not_le _ _ Hlt Hfar)|].
    exists c. unfold updateLastVisible in Hle.
    destruct (Qlt_bool (elStartPos s e) (viewportBottom (refresh_window s)))
      eqn:Hvis.
    + exists i. repeat split; [assumption | lia | assumption |].
      right. unfold bookkeeps. rewrite He, Ha, Hi, Hn, Hvis. reflexivity.
    + destruct (lastVisible_at_origin s i lv Hlv) as [->|[Hlt Hb]].
      * exists 0%nat. repeat split; [assumption | lia | assumption | now left].
      * exists lv. repeat split; [assumption | lia | assumption | now right].
Qed.

Lemma far_child_activation_witness :
  nonContinuous trailingRows = false /\
  exists c j, prerenderItemsCount trailingRows = Some c /\
    (j <= 13)%nat /\ (Z.of_nat 13 <= Z.of_nat j + c)%Z /\
    (j = 0%nat \/ bookkeeps trailingRows j = true).
Proof.
  apply (far_child_activation trailingRows 13 (row 5000 false));
    try reflexivity.
  discriminate.
Defined.

(** X5. Under the constructor's defaults [prerenderItemsCount] is not set:
    whatever the geometry and the children, [refresh] turns a child active
    only if its index is below 10 or its [offsetTop] is below
    [scrollTop + offsetHeight + offsetHeight / 2] of the element. *)
Theorem default_window (el : HTMLElement) (slotted : list LazyChild)
  (i : nat) (e : LazyChild) :
  nth_error slotted i = Some e -> active e = false ->
  nth_error (flags (refresh (constructor el slotted))) i = Some true ->
  (i < 10)%nat \/
  offsetTop e < scrollTop el + offsetHeight el + offsetHeight el * (1 # 2).
Proof.
  intros He Ha Hflag.
  destruct (refresh_newly_active (constructor el slotted) i e He Ha Hflag)
    as (lv & _ & [Hi|[_ Htest]]).
  - left. apply isInitialItem_iff in Hi as (n & [= <-] & Hlt). lia.
  - right. simpl in Htest.
    apply inPrerenderRange_iff in Htest as [Hlt|(c & Hc & _)];
      [exact Hlt | discriminate].
Qed.

Lemma default_window_witness :
  (11 < 10)%nat \/
  offsetTop (row 550 false)
  < scrollTop (pane 0 20000 400) + offsetHeight (pane 0 20000 400)
    + offsetHeight (pane 0 20000 400) * (1 # 2).
Proof.
  apply (default_window (pane 0 20000 400)
           (rowsAt [0; 50; 100; 150; 200; 250; 300; 350; 400; 450; 500; 550;
                    600])
           11 (row 550 false)); reflexivity.
Defined.

(** ** Navigation helpers *)

Lemma engine_run_scrollLength (r : Run) (s : DwLazyList) :
  _findScorllLength (engine_run r s) = _findScorllLength s.
Proof.
  destruct r; simpl; [rewrite refresh_eq | rewrite initialItemRefresh_eq];
    reflexivity.
Qed.

(** X6. [canScrollTop] and the scroll-top flag agree after a run: a run
    leaves [canScrollTop] as it was; when the flag is set the list cannot
    scroll up; and when the list has scroll and its scroll length is not
    negative, the flag is set exactly when it cannot scroll up. *)
Theorem canScrollTop_matches_flag (r : Run) (s : DwLazyList) :
  let s' := engine_run r s in
  canScrollTop s' = canScrollTop s /\
  (_scrollTop s' = true -> canScrollTop s' = false) /\
  (_hasScroll s' = true -> 0 <= _findScorllLength s ->
   _scrollTop s' = negb (canScrollTop s')).
Proof.
  intros s'.
  assert (Hsame : canScrollTop s' = canScrollTop s).
  { unfold canScrollTop, s'. now rewrite engine_run_scrollLength. }
  destruct (engine_run_scrollProps r s) as (Hh & Ht & _). fold s' in Hh, Ht.
  split; [exact Hsame | split].
  - intros H. rewrite Ht in H. apply andb_true_iff in H as [_ H].
    apply Qeq_bool_iff in H. rewrite Hsame. unfold canScrollTop, Qgt_bool.
    apply Qlt_bool_false_iff. rewrite H. apply Qle_refl.
  - intros H Hpos. rewrite Ht, <- Hh, H, Hsame. simpl.
    unfold canScrollTop, Qgt_bool.
    destruct (Qlt_bool_spec 0 (_findScorllLength s)) as [Hlt|Hge]; simpl.
    + rewrite <- not_true_iff_false, Qeq_bool_iff. intros Heq.
      rewrite Heq in Hlt. apply (Qlt_irrefl _ Hlt).
    + apply Qeq_bool_iff. apply Qle_antisym; [|assumption].
      now apply Qnot_lt_le.
Qed.

Lemma canScrollTop_matches_flag_witness :
  canScrollTop (refresh (threeRows 0)) = false /\
  _scrollTop (refresh (threeRows 600))
  = negb (canScrollTop (refresh (threeRows 600))).
Proof.
  split.
  - apply (canScrollTop_matches_flag Refresh (threeRows 0)). reflexivity.
  - apply (canScrollTop_matches_flag Refresh (threeRows 600)).
    + reflexivity.
    + discriminate.
Defined.

Lemma at_index_None {A : Type} (rows : list A) (index : Z) :
  at_index rows index = None <->
  (index < 0)%Z \/ (Z.of_nat (List.length rows) <= index)%Z.
Proof.
  unfold at_index. destruct (Z.ltb_spec index 0) as [Hneg|Hpos].
  - split; [now left | reflexivity].
  - rewrite nth_error_None. split; [intros H; right | intros [H|H]]; lia.
Qed.

Lemma scrollToIndex_in_range
  (assignScrollTop : HTMLElement -> Q -> HTMLElement) (s : DwLazyList)
  (index : Z) (row : LazyChild) :
  (0 <= index)%Z ->
  nth_error (children s) (Z.to_nat index) = Some row ->
  scrollToIndex assignScrollTop s index
  = set_scrollingElement s
      (assignScrollTop (_getScrollingElement s) (offsetTop row)).
Proof.
  intros Hpos Hrow. unfold scrollToIndex, _findLazyChildren, at_index.
  destruct (Z.ltb_spec index 0); [lia|]. now rewrite Hrow.
Qed.

(** X7. [scrollToIndex] with an index below 0 or not below the number of
    children returns the list untouched and assigns nothing; with the index
    of a child it changes nothing but the scrolling element, to which the
    child's [offsetTop] is assigned as [scrollTop], whatever the list's
    direction. *)
Theorem scrollToIndex_bounds
  (assignScrollTop : HTMLElement -> Q -> HTMLElement) (s : DwLazyList)
  (index : Z) :
  ((index < 0)%Z \/ (Z.of_nat (List.length (children s)) <= index)%Z ->
   scrollToIndex assignScrollTop s index = s) /\
  (forall row, (0 <= index)%Z ->
     nth_error (children s) (Z.to_nat index) = Some row ->
     scrollToIndex assignScrollTop s index
     = set_scrollingElement s
         (assignScrollTop (_getScrollingElement s) (offsetTop row))).
Proof.
  split.
  - intros H. apply at_index_None in H.
    unfold scrollToIndex, _findLazyChildren. now rewrite H.
  - intros row Hpos Hrow. now apply scrollToIndex_in_range.
Qed.

Lemma scrollToIndex_bounds_witness :
  scrollToIndex assignNow (threeRows 0) 3 = threeRows 0 /\
  scrollToIndex assignNow (threeRows 0) (-1) = threeRows 0 /\
  scrollToIndex assignNow columns 1
  = set_scrollingElement columns
      (assignNow (_getScrollingElement columns) 0).
Proof.
  split; [|split].
  - apply (scrollToIndex_bounds assignNow (threeRows 0) 3). right. simpl. lia.
  - apply (scrollToIndex_bounds assignNow (threeRows 0) (-1)). left. lia.
  - apply (proj2 (scrollToIndex_bounds assignNow columns 1)
             (mkLazyChild 0 300 false)); [lia | reflexivity].
Defined.

(** The geometry a vertical list reads once an assignment to [scrollTop] has
    been applied as given. *)
Lemma assignNow_geometry (s : DwLazyList) (v : Q) :
  isVertical s = true ->
  let s' := set_scrollingElement s (assignNow (_getScrollingElement s) v) in
  _findScorllLength s' = v /\
  _findViewportLength s' = _findViewportLength s /\
  forall e, elStartPos s' e = offsetTop e.
Proof.
  intros Hv s'.
  assert (Hv' : isVertical s' = true) by exact Hv.
  unfold _findScorllLength, _findViewportLength, elStartPos.
  rewrite Hv', Hv. subst s'. unfold _getScrollingElement. simpl.
  destruct (scrollTarget s); simpl; repeat split.
Qed.

(** X8. Scrolling to a row brings it in: on a vertical list with a viewport
    of positive length and a prerender ratio that is not negative, when the
    browser applies the assignment of [scrollToIndex] at once and as given,
    the next [refresh] makes the child at that index active, provided the
    list is non-continuous or no child before it starts after it. *)
Theorem scrollToIndex_then_refresh (s : DwLazyList) (i : nat)
  (e : LazyChild) :
  isVertical s = true ->
  nth_error (children s) i = Some e ->
  0 < _findViewportLength s ->
  0 <= or_zero (prerenderItemsPercentages s) ->
  (nonContinuous s = false ->
   forall j x, (j < i)%nat -> nth_error (children s) j = Some x ->
               offsetTop x <= offsetTop e) ->
  nth_error (flags (refresh (scrollToIndex assignNow s (Z.of_nat i)))) i
  = Some true.
Proof.
  intros Hv He Hvl Hr Hord.
  rewrite (scrollToIndex_in_range assignNow s (Z.of_nat i) e)
    by (rewrite ?Nat2Z.id; (lia || assumption)).
  set (s' := set_scrollingElement s
               (assignNow (_getScrollingElement s) (offsetTop e))).
  destruct (assignNow_geometry s (offsetTop e) Hv) as (Hsl & Hvl' & Hpos).
  fold s' in Hsl, Hvl', Hpos.
  assert (He' : nth_error (children s') i = Some e) by exact He.
  assert (Hprod : 0 <= _findViewportLength s
                       * or_zero (prerenderItemsPercentages s)).
  { apply Qmult_le_0_compat; [now apply Qlt_le_weak | assumption]. }
  assert (Hveb : viewportExtendedBottom (refresh_window s')
                 == offsetTop e + _findViewportLength s
                    + _findViewportLength s
                      * or_zero (prerenderItemsPercentages s)).
  { unfold refresh_window. rewrite Hsl, Hvl'. reflexivity. }
  assert (Hvt : viewportTop (refresh_window s')
                == offsetTop e - _findViewportLength s).
  { unfold refresh_window. rewrite Hsl, Hvl'. reflexivity. }
  assert (Hbelow : forall x, offsetTop x <= offsetTop e ->
                     elStartPos s' x < viewportExtendedBottom (refresh_window s')).
  { intros x Hx. rewrite Hpos, Hveb. lra. }
  apply flags_nth.
  assert (Hlen : (i < List.length (children s'))%nat).
  { apply nth_error_Some. now rewrite He'. }
  destruct (nonContinuous s') eqn:Hn.
  - destruct (nonContinuous_reaches s' i Hn Hlen) as [lv Hlv].
    rewrite (refresh_nth s' i e He'), Hlv.
    rewrite refresh_iteratee_nonContinuous by assumption.
    eexists. split; [reflexivity|]. cbn [fst snd].
    destruct (active e) eqn:Ha; [assumption|].
    assert (Hin : inExtendedViewport s' (refresh_window s') e = true).
    { unfold inExtendedViewport, Qgt_bool.
      rewrite andb_true_iff, orb_true_iff, !Qlt_bool_iff.
      split; [apply Hbelow, Qle_refl | left].
      rewrite Hpos, Hvt. lra. }
    rewrite Hin, orb_true_r. reflexivity.
  - destruct (refresh_reaches_covered s' i Hn Hlen) as [lv Hlv].
    { intros k x Hk Hx. right. right. apply Hbelow.
      now apply (Hord Hn k x). }
    rewrite (refresh_nth s' i e He'), Hlv.
    eexists. split; [reflexivity|].
    apply refresh_iteratee_passes; [assumption|].
    right. right. apply Hbelow, Qle_refl.
Qed.

Lemma scrollToIndex_then_refresh_witness :
  nth_error
    (flags (refresh (scrollToIndex assignNow scatteredRows (Z.of_nat 4)))) 4
  = Some true.
Proof.
  apply (scrollToIndex_then_refresh scatteredRows 4 (row 9000 false));
    try reflexivity; discriminate.
Defined.

(** ** Timers of scrollToBottom *)

Lemma remove_single (d : nat) : remove Nat.eq_dec d [d] = [].
Proof. simpl. now destruct (Nat.eq_dec d d). Qed.

Lemma cancel_owned (p : Page) :
  timersOwned p -> cancel (_scrollToBottomDebouncer p) (timers p) = [].
Proof.
  intros [H|(d & Hd & H)]; rewrite H.
  - unfold cancel. now destruct (_scrollToBottomDebouncer p).
  - rewrite Hd. apply remove_single.
Qed.

Lemma scrollToBottom_owned
  (assignScrollTop : HTMLElement -> Q -> HTMLElement) (p : Page) :
  timersOwned p -> timersOwned (scrollToBottom assignScrollTop p).
Proof.
  intros H. unfold scrollToBottom.
  destruct (hasReachedBottom _); [assumption|].
  right. exists (debounced p). simpl. now rewrite cancel_owned.
Qed.

Lemma page_step_owned
  (assignScrollTop : HTMLElement -> Q -> HTMLElement) (p p' : Page) :
  page_step assignScrollTop p p' -> timersOwned p -> timersOwned p'.
Proof.
  intros Hstep H. destruct Hstep as [p|p d Hin|p captured Hpos|p|p|p l t].
  - now apply scrollToBottom_owned.
  - left. simpl. destruct H as [H|(d' & _ & H)]; rewrite H in *.
    + destruct Hin.
    + destruct Hin as [->|[]]. apply remove_single.
  - unfold recheck. destruct (hasReachedBottom _); [exact H|].
    apply scrollToBottom_owned. exact H.
  - exact H.
  - left. simpl. now apply cancel_owned.
  - exact H.
Qed.

Lemma reachable_owned
  (assignScrollTop : HTMLElement -> Q -> HTMLElement) (el : HTMLElement)
  (slotted : list LazyChild) (p : Page) :
  clos_refl_trans_n1 Page (page_step assignScrollTop) (newPage el slotted) p ->
  timersOwned p.
Proof.
  induction 1 as [|p p' Hstep _ IH]; [now left|].
  now apply (page_step_owned assignScrollTop p p').
Qed.

(** X9. At most one recheck timer: on every page reached from a freshly
    constructed element by calls of [scrollToBottom], timers running out,
    rechecks, connects, disconnects and changes to the list, no timer is
    running, or exactly one is and it belongs to the debounced function
    stored in [_scrollToBottomDebouncer]. *)
Theorem one_recheck_timer
  (assignScrollTop : HTMLElement -> Q -> HTMLElement) (el : HTMLElement)
  (slotted : list LazyChild) (p : Page) :
  clos_refl_trans_n1 Page (page_step assignScrollTop) (newPage el slotted) p ->
  (List.length (timers p) <= 1)%nat /\
  (timers p = [] \/
   exists d, _scrollToBottomDebouncer p = Some d /\ timers p = [d]).
Proof.
  intros Hreach.
  pose proof (reachable_owned assignScrollTop el slotted p Hreach) as H.
  split; [|exact H].
  destruct H as [H|(d & _ & H)]; rewrite H; simpl; lia.
Qed.

Lemma one_recheck_timer_witness :
  timers (scrollToBottom assignLater (scrollToBottom assignLater tallPage))
  = [] \/
  exists d,
    _scrollToBottomDebouncer
      (scrollToBottom assignLater (scrollToBottom assignLater tallPage))
    = Some d /\
    timers (scrollToBottom assignLater (scrollToBottom assignLater tallPage))
    = [d].
Proof.
  apply (one_recheck_timer assignLater (pane 0 1000 400)
           (rowsAt [0; 100; 200])).
  apply Relation_Operators.rtn1_trans
    with (y := scrollToBottom assignLater tallPage).
  { apply page_scrollToBottom. }
  apply Relation_Operators.rtn1_trans with (y := tallPage).
  { apply page_scrollToBottom. }
  apply Relation_Operators.rtn1_refl.
Defined.

(** X10. [scrollToBottom] on a reached page: when
    [scrollTop + clientHeight >= scrollHeight] it returns the page untouched
    (nothing is assigned, no timer is started); otherwise it assigns
    [scrollHeight] to [scrollTop], clears the timer of the debounced function
    it replaces, and leaves exactly one timer running, that of the new
    debounced function it stores. *)
Theorem scrollToBottom_effect
  (assignScrollTop : HTMLElement -> Q -> HTMLElement) (el : HTMLElement)
  (slotted : list LazyChild) (p : Page) :
  clos_refl_trans_n1 Page (page_step assignScrollTop) (newPage el slotted) p ->
  let scrollingElement := _getScrollingElement (this p) in
  let p' := scrollToBottom assignScrollTop p in
  (scrollHeight scrollingElement
   <= scrollTop scrollingElement + clientHeight scrollingElement ->
   p' = p) /\
  (scrollTop scrollingElement + clientHeight scrollingElement
   < scrollHeight scrollingElement ->
   this p'
   = set_scrollingElement (this p)
       (assignScrollTop scrollingElement (scrollHeight scrollingElement)) /\
   _scrollToBottomDebouncer p' = Some (debounced p) /\
   timers p' = [debounced p] /\
   thens p' = thens p /\ listening p' = listening p /\
   scrollListeners p' = scrollListeners p).
Proof.
  intros Hreach se p'. subst p'. unfold scrollToBottom. fold se.
  unfold hasReachedBottom. split.
  - intros H. apply Qle_bool_iff in H. now rewrite H.
  - intros H. apply Qlt_not_le in H. rewrite <- Qle_bool_iff in H.
    apply not_true_is_false in H. rewrite H. simpl.
    pose proof (reachable_owned assignScrollTop el slotted p Hreach) as Hown.
    rewrite (cancel_owned p Hown). repeat split.
Qed.

Lemma scrollToBottom_effect_witness :
  scrollToBottom assignLater
    (newPage (pane 600 1000 400) (rowsAt [0; 100; 200]))
  = newPage (pane 600 1000 400) (rowsAt [0; 100; 200]) /\
  timers (scrollToBottom assignLater (scrollToBottom assignLater tallPage))
  = [1%nat].
Proof.
  split.
  - apply (scrollToBottom_effect assignLater (pane 600 1000 400)
             (rowsAt [0; 100; 200])).
    + apply Relation_Operators.rtn1_refl.
    + discriminate.
  - apply (scrollToBottom_effect assignLater (pane 0 1000 400)
             (rowsAt [0; 100; 200]) (scrollToBottom assignLater tallPage)).
    + apply Relation_Operators.rtn1_trans with (y := tallPage).
      { apply page_scrollToBottom. }
      apply Relation_Operators.rtn1_refl.
    + reflexivity.
Defined.

(** X11. Teardown: on a reached page, [disconnectedCallback] leaves no timer
    running, clears [_scrollToBottomDebouncer], removes the window's resize
    listener and the scroll listener of the object that is [scrollTarget] at
    that moment, and leaves the list itself as it was.  A scroll listener
    registered on an object that was [scrollTarget] earlier stays
    registered. *)
Theorem disconnectedCallback_clears_timer
  (assignScrollTop : HTMLElement -> Q -> HTMLElement) (el : HTMLElement)
  (slotted : list LazyChild) (p : Page) :
  clos_refl_trans_n1 Page (page_step assignScrollTop) (newPage el slotted) p ->
  let p' := disconnectedCallback p in
  timers p' = [] /\
  _scrollToBottomDebouncer p' = None /\
  listening p' = false /\
  ~ In (scrollTargetId p) (scrollListeners p') /\
  (forall target, target <> scrollTargetId p ->
     (In target (scrollListeners p') <-> In target (scrollListeners p))) /\
  this p' = this p.
Proof.
  intros Hreach p'. subst p'. simpl. unfold removeEventListener.
  split; [|split; [|split; [|split; [|split]]]]; try reflexivity.
  - apply cancel_owned.
    now apply (reachable_owned assignScrollTop el slotted).
  - apply remove_In.
  - intros target Hne. split.
    + intros H. now apply in_remove in H.
    + intros H. apply in_in_remove; assumption.
Qed.

Lemma disconnectedCallback_clears_timer_witness :
  timers (disconnectedCallback retargetedPage) = [] /\
  scrollTargetId retargetedPage = 1%nat /\
  In 0%nat (scrollListeners (disconnectedCallback retargetedPage)).
Proof.
  assert (Hreach : clos_refl_trans_n1 Page (page_step assignLater)
                     (newPage (pane 0 1000 400) (rowsAt [0; 100; 200]))
                     retargetedPage).
  { apply Relation_Operators.rtn1_trans
      with (y := mkPage (this tallPage) None true 1 [0%nat] [] 0 0).
    { apply page_scrollToBottom. }
    apply Relation_Operators.rtn1_trans with (y := connectedCallback tallPage).
    { apply (page_changes assignLater (connectedCallback tallPage)
               (this tallPage) 1). }
    apply Relation_Operators.rtn1_trans with (y := tallPage).
    { apply page_connected. }
    apply Relation_Operators.rtn1_refl. }
  destruct (disconnectedCallback_clears_timer assignLater (pane 0 1000 400)
              (rowsAt [0; 100; 200]) retargetedPage Hreach)
    as (Ht & _ & _ & _ & Hstay & _).
  split; [exact Ht | split; [reflexivity|]].
  apply Hstay; [discriminate | simpl; now left].
Defined.




(** ** What a run depends on *)

(** Two scans in step: iteratees that treat related elements alike give
    related results. *)
Lemma forEach_from_sim {St A B : Type} (R : A -> B -> Prop)
  (f : St -> A -> nat -> St * A * bool) (g : St -> B -> nat -> St * B * bool)
  (Hsim : forall st a b i, R a b ->
            fst (fst (f st a i)) = fst (fst (g st b i)) /\
            snd (f st a i) = snd (g st b i) /\
            R (snd (fst (f st a i))) (snd (fst (g st b i))))
  (l1 : list A) (l2 : list B) :
  Forall2 R l1 l2 ->
  forall index st,
    Forall2 R (snd (forEach_from f index st l1))
      (snd (forEach_from g index st l2)).
Proof.
  induction 1 as [|a b l1 l2 Hab Hl IH]; intros index st; [constructor|].
  rewrite !forEach_from_cons.
  destruct (Hsim st a b index Hab) as (Hst & Hc & Hr).
  constructor; [exact Hr|].
  rewrite <- Hc, <- Hst. destruct (snd (f st a index)); [apply IH | exact Hl].
Qed.

Lemma Forall2_flags (s1 s2 : DwLazyList) (l1 l2 : list LazyChild) :
  Forall2 (fun a b => elStartPos s1 a = elStartPos s2 b /\ active a = active b)
    l1 l2 ->
  map active l1 = map active l2.
Proof.
  induction 1 as [|a b l1 l2 [_ Hab] _ IH]; simpl; [reflexivity|].
  now rewrite Hab, IH.
Qed.

Lemma elStartPos_activate (s : DwLazyList) (e : LazyChild) :
  elStartPos s (activate e) = elStartPos s e.
Proof. unfold elStartPos. now destruct (isVertical s). Qed.

(** X13. A run is a function of the configuration, the three lengths read
    along the list's axis, and each child's start position and flag: two
    lists that agree on these (whatever their directions and whatever their
    geometry across the axis) get the same active flags and the same boundary
    flags from the same run. *)
Theorem run_reads_one_axis (r : Run) (s1 s2 : DwLazyList) :
  prerenderItemsPercentages s1 = prerenderItemsPercentages s2 ->
  initialItemsCount s1 = initialItemsCount s2 ->
  prerenderItemsCount s1 = prerenderItemsCount s2 ->
  nonContinuous s1 = nonContinuous s2 ->
  _findViewportLength s1 = _findViewportLength s2 ->
  _findScorllLength s1 = _findScorllLength s2 ->
  _findContentLength s1 = _findContentLength s2 ->
  Forall2 (fun a b => elStartPos s1 a = elStartPos s2 b /\ active a = active b)
    (children s1) (children s2) ->
  flags (engine_run r s1) = flags (engine_run r s2) /\
  _hasScroll (engine_run r s1) = _hasScroll (engine_run r s2) /\
  _scrollTop (engine_run r s1) = _scrollTop (engine_run r s2) /\
  _scrollBottom (engine_run r s1) = _scrollBottom (engine_run r s2).
Proof.
  intros Hratio HN Hcount Hmode Hvl Hsl Hcl Hrows.
  assert (Hinit : forall i, isInitialItem s1 i = isInitialItem s2 i).
  { intros i. unfold isInitialItem. now rewrite HN. }
  split.
  - unfold flags. apply (Forall2_flags s1 s2). destruct r; simpl.
    + rewrite !refresh_children.
      unfold refresh_scan, forEach, _findLazyChildren.
      assert (Hw : refresh_window s1 = refresh_window s2).
      { unfold refresh_window, window. now rewrite Hratio, Hvl, Hsl. }
      unfold refresh_window in Hw. rewrite Hw.
      apply forEach_from_sim; [|exact Hrows].
      intros lv a b i [Hpos Hact]. unfold refresh_iteratee.
      rewrite Hact, Hinit, Hmode.
      unfold inExtendedViewport, inPrerenderRange, updateLastVisible.
      rewrite Hpos, Hcount.
      destruct (active b) eqn:Hb; [simpl; repeat split; congruence|].
      destruct (isInitialItem s2 i);
        [simpl; rewrite !elStartPos_activate; repeat split; congruence|].
      destruct (nonContinuous s2).
      * destruct (_ && _); simpl; rewrite ?elStartPos_activate;
          repeat split; congruence.
      * destruct (_ || _); simpl; rewrite ?elStartPos_activate;
          repeat split; congruence.
    + rewrite !initialItemRefresh_children. unfold forEach.
      apply forEach_from_sim; [|exact Hrows].
      intros st a b i [Hpos Hact]. unfold initialItemRefresh_iteratee.
      rewrite Hact, Hinit.
      destruct (active b) eqn:Hb; [simpl; repeat split; congruence|].
      destruct (isInitialItem s2 i); simpl; rewrite ?elStartPos_activate;
        repeat split; congruence.
  - destruct (engine_run_scrollProps r s1) as (-> & -> & ->).
    destruct (engine_run_scrollProps r s2) as (-> & -> & ->).
    now rewrite Hvl, Hsl, Hcl.
Qed.

Lemma run_reads_one_axis_witness :
  flags (refresh stackedColumns) = flags (refresh stackedRows).
Proof.
  apply (run_reads_one_axis Refresh stackedColumns stackedRows);
    try reflexivity.
  repeat constructor.
Defined.
